(** * FootLens injury-impact dashboard: the metrics pipeline and the view composer

    A shallow embedding of [Summative.py].  The program is a pandas script:
    [load_data] reads a CSV table, parses two date columns, renames the
    identity columns, cleans every rating and goal-difference column with
    [clean_numeric], and derives four per-record metrics; [main] filters the
    enriched table by three sidebar selections and builds the summary
    scalars, a ranking, a frequency grid and a leaderboard.

    Conventions of the embedding.
    - A Python [str] is a Rocq [string]; a character is its code point, so the
      text covered is the one made of code points below 256.
    - A Python [float] is a binary64 value: [spec_float] at precision 53 and
      maximal exponent 1024, with the operations of [SpecFloat].
    - A data frame is a list of column labels and a list of rows; a row maps
      a column label to a cell. *)

From Stdlib Require Import ZArith NArith String Ascii List Bool SpecFloat.
From stdpp Require Import base option list strings gmap sorting.

Local Open Scope Z_scope.

(** ** Python text builtins *)

Module PyText.

Abbreviation text := (list ascii).

Definition code (c : ascii) : N := N_of_ascii c.

(** [str.isspace] on one character (code points below 256). *)
Definition is_space (c : ascii) : bool :=
  let n := code c in
  (((9 <=? n) && (n <=? 13)) || ((28 <=? n) && (n <=? 32))
   || (n =? 133) || (n =? 160))%N.

(** [Py_ISSPACE] of the C runtime: space, tab, newline, vertical tab, form
    feed and carriage return. *)
Definition is_c_space (c : ascii) : bool :=
  let n := code c in (((9 <=? n) && (n <=? 13)) || (n =? 32))%N.

Definition is_digit (c : ascii) : bool :=
  let n := code c in ((48 <=? n) && (n <=? 57))%N.

Definition digit_val (c : ascii) : Z := Z.of_N (code c) - 48.

Fixpoint drop_while (p : ascii -> bool) (l : text) : text :=
  match l with
  | [] => []
  | c :: l' => if p c then drop_while p l' else l
  end.

Definition strip_with (p : ascii -> bool) (l : text) : text :=
  rev (drop_while p (rev (drop_while p l))).

(** [s.strip()] *)
Definition strip : text -> text := strip_with is_space.

(** [s.lower()] on one character: the ASCII capitals and the Latin-1
    capitals (all of 192..222 but the multiplication sign 215). *)
Definition lower_char (c : ascii) : ascii :=
  let n := code c in
  if (((65 <=? n) && (n <=? 90))
      || ((192 <=? n) && (n <=? 222) && negb (n =? 215)))%N
  then ascii_of_N (n + 32) else c.

Definition lower : text -> text := map lower_char.

Fixpoint starts_with (p l : text) : bool :=
  match p, l with
  | [], _ => true
  | _ :: _, [] => false
  | a :: p', b :: l' => Ascii.eqb a b && starts_with p' l'
  end.

(** [p in s] for strings: [p] occurs as a contiguous substring. *)
Fixpoint contains (p l : text) : bool :=
  starts_with p l ||
  match l with
  | [] => false
  | _ :: l' => contains p l'
  end.

(** [s.endswith(p)] *)
Definition ends_with (p l : text) : bool := starts_with (rev p) (rev l).

(** [s.replace(",", "")] *)
Definition remove_commas (l : text) : text :=
  filter (fun c => c <> ","%char) l.

(** [re.sub(r"\(.*?\)", "", s)].  A match starts at an opening parenthesis
    and runs to the first closing one, and the dot matches no newline, so an
    opening parenthesis whose line ends before any closing one starts no
    match.  [pending] holds, in reverse, the text read since the opening
    parenthesis that may still start a match: a closing parenthesis drops
    it, a newline or the end of the text gives it back. *)
Fixpoint sub_parens_from (pending : option text) (l : text) : text :=
  match l with
  | [] => match pending with Some p => rev p | None => [] end
  | c :: l' =>
      match pending with
      | None =>
          if Ascii.eqb c "("%char then sub_parens_from (Some [c]) l'
          else c :: sub_parens_from None l'
      | Some p =>
          if Ascii.eqb c ")"%char then sub_parens_from None l'
          else if Ascii.eqb c "010"%char
               then rev p ++ c :: sub_parens_from None l'
               else sub_parens_from (Some (c :: p)) l'
      end
  end.

Definition sub_parens : text -> text := sub_parens_from None.

(** The decimal digits of a natural number, most significant first. *)
Fixpoint digits_fuel (fuel : nat) (n : Z) (acc : text) : text :=
  match fuel with
  | O => acc
  | S fuel' =>
      let acc' := ascii_of_N (Z.to_N (48 + n mod 10)) :: acc in
      if n / 10 =? 0 then acc' else digits_fuel fuel' (n / 10) acc'
  end.

Definition digits_of (n : Z) : text :=
  digits_fuel (S (Z.to_nat (Z.log2 n))) n [].

(** The characters of a text. *)
Definition txt (s : string) : text := list_ascii_of_string s.

(** [str(n)] for an [int]. *)
Definition str_int (z : Z) : text :=
  if z <? 0 then "-"%char :: digits_of (- z) else digits_of z.

End PyText.

(** ** Python floats: binary64 values, [float(s)] and [str(x)] *)

Module PyFloat.
Import PyText.

Definition float64 := spec_float.

Definition prec : Z := 53.
Definition emax : Z := 1024.

Definition nan : float64 := S754_nan.

Definition is_nan (x : float64) : bool :=
  match x with S754_nan => true | _ => false end.

Definition fadd : float64 -> float64 -> float64 := SFadd prec emax.
Definition fsub : float64 -> float64 -> float64 := SFsub prec emax.
Definition fdiv : float64 -> float64 -> float64 := SFdiv prec emax.
Definition feqb : float64 -> float64 -> bool := SFeqb.
Definition fltb : float64 -> float64 -> bool := SFltb.

(** [float(n)] for an integer: the nearest binary64 value, ties to even. *)
Definition of_Z (n : Z) : float64 := binary_normalize prec emax n 0 false.

(** The binary64 value nearest to [mant * 10 ^ e10] (ties to even), with the
    sign [neg]; [mant] is not negative. *)
Definition of_decimal (neg : bool) (mant e10 : Z) : float64 :=
  if mant =? 0 then S754_zero neg
  else if 0 <=? e10
  then binary_normalize prec emax (cond_Zopp neg (mant * 10 ^ e10)) 0 false
  else
    let '(q, e', l) := SFdiv_core_binary prec emax mant 0 (10 ^ (- e10)) 0 in
    binary_round_aux prec emax neg q e' l.

(** What a float literal denotes. *)
Inductive literal :=
| LInf (neg : bool)
| LNan
| LNum (neg : bool) (mant e10 : Z).

Definition literal_value (l : literal) : float64 :=
  match l with
  | LInf neg => S754_infinity neg
  | LNan => nan
  | LNum neg mant e10 => of_decimal neg mant e10
  end.

Fixpoint take_digits (l : text) : text * text :=
  match l with
  | c :: l' =>
      if is_digit c then let '(ds, r) := take_digits l' in (c :: ds, r)
      else ([], l)
  | [] => ([], [])
  end.

Definition digits_value (ds : text) : Z :=
  fold_left (fun a c => 10 * a + digit_val c) ds 0.

Definition parse_sign (l : text) : bool * text :=
  match l with
  | c :: r =>
      if Ascii.eqb c "+"%char then (false, r)
      else if Ascii.eqb c "-"%char then (true, r)
      else (false, l)
  | [] => (false, [])
  end.

(** The exponent part, which must reach the end of the text: nothing, or
    [e] or [E], an optional sign and at least one digit. *)
Definition parse_exponent (l : text) : option Z :=
  match l with
  | [] => Some 0
  | c :: r =>
      if Ascii.eqb c "e"%char || Ascii.eqb c "E"%char then
        let '(neg, r1) := parse_sign r in
        let '(ds, r2) := take_digits r1 in
        match ds, r2 with
        | _ :: _, [] => Some (cond_Zopp neg (digits_value ds))
        | _, _ => None
        end
      else None
  end.

Definition text_eqb (a b : text) : bool :=
  String.eqb (string_of_list_ascii a) (string_of_list_ascii b).

(** The grammar of [float]: an optional sign, then [inf], [infinity] or
    [nan] in any case, or digits with an optional point and an optional
    exponent, at least one digit before the exponent. *)
Definition parse_literal (l : text) : option literal :=
  let '(neg, r) := parse_sign l in
  let w := lower r in
  if text_eqb w (txt "inf") || text_eqb w (txt "infinity") then Some (LInf neg)
  else if text_eqb w (txt "nan") then Some LNan
  else
    let '(ip, r1) := take_digits r in
    let '(fp, r2) :=
      match r1 with
      | c :: r' => if Ascii.eqb c "."%char then take_digits r' else ([], r1)
      | [] => ([], r1)
      end in
    match ip ++ fp with
    | [] => None
    | ds =>
        match parse_exponent r2 with
        | Some e => Some (LNum neg (digits_value ds) (e - Z.of_nat (length fp)))
        | None => None
        end
    end.

(** An underscore is allowed only between two digits. *)
Fixpoint underscores_ok (prev : option ascii) (l : text) : bool :=
  match l with
  | [] => match prev with
          | Some p => negb (Ascii.eqb p "_"%char)
          | None => true
          end
  | c :: l' =>
      (if Ascii.eqb c "_"%char
       then match prev with Some p => is_digit p | None => false end
       else match prev with
            | Some p => negb (Ascii.eqb p "_"%char) || is_digit c
            | None => true
            end)
      && underscores_ok (Some c) l'
  end.

Definition remove_underscores (l : text) : text :=
  filter (fun c => c <> "_"%char) l.

(** Before parsing, [float] turns the white space of a text that is not
    pure ASCII into spaces; a character above 126 that is neither white
    space nor a digit becomes a question mark, which no literal contains. *)
Definition to_ascii_space (l : text) : text :=
  if forallb (fun c => (code c <? 128)%N) l then l
  else map (fun c => if (code c <? 127)%N then c
                     else if is_space c then " "%char else "?"%char) l.

(** [float(s)]: [None] stands for the [ValueError] raised on a text that is
    no float literal. *)
Definition py_float (s : text) : option float64 :=
  let s1 := strip_with is_c_space (to_ascii_space s) in
  if underscores_ok None s1
  then literal_value <$> parse_literal (remove_underscores s1)
  else None.

(** *** [str(x)] for a float: the shortest decimal text that reads back as [x] *)

(** A positive value [num / den] divided by [10 ^ s], as a fraction. *)
Definition scale10 (num den s : Z) : Z * Z :=
  if 0 <=? s then (num, den * 10 ^ s) else (num * 10 ^ (- s), den).

(** [10 ^ k <= num / den] *)
Definition pow10_le (num den k : Z) : bool :=
  let '(n, d) := scale10 num den k in d <=? n.

Fixpoint log10_adjust (fuel : nat) (num den k : Z) : Z :=
  match fuel with
  | O => k
  | S fuel' =>
      if pow10_le num den (k + 1) then log10_adjust fuel' num den (k + 1)
      else if pow10_le num den k then k
      else log10_adjust fuel' num den (k - 1)
  end.

(** The integer part of the decimal logarithm of [num / den]: an estimate
    from the binary logarithms, then corrected. *)
Definition floor_log10 (num den : Z) : Z :=
  log10_adjust 8 num den (((Z.log2 num - Z.log2 den) * 1233) / 4096).

(** The candidates with [p] significant digits are the two multiples of
    [10 ^ s] around [x], with [s] the position of the last digit.  Among
    those that read back as [x] the nearer one is taken, and the even one
    when both are as near. *)
Definition digits_at (x : float64) (num den k : Z) (p : Z) : option (Z * Z) :=
  let s := k - p + 1 in
  let '(n, d) := scale10 num den s in
  let lo := n / d in
  let r := n mod d in
  let ok_lo := feqb (of_decimal false lo s) x in
  let ok_hi := negb (r =? 0) && feqb (of_decimal false (lo + 1) s) x in
  if ok_lo && ok_hi then
    match 2 * r ?= d with
    | Lt => Some (lo, s)
    | Gt => Some (lo + 1, s)
    | Eq => Some (if Z.even lo then lo else lo + 1, s)
    end
  else if ok_lo then Some (lo, s)
  else if ok_hi then Some (lo + 1, s)
  else None.

Fixpoint shortest_from (fuel : nat) (x : float64) (num den k p : Z) : Z * Z :=
  match fuel with
  | O => let '(n, d) := scale10 num den (k - p + 1) in (n / d, k - p + 1)
  | S fuel' =>
      match digits_at x num den k p with
      | Some r => r
      | None => shortest_from fuel' x num den k (p + 1)
      end
  end.

Fixpoint drop_zeros (fuel : nat) (d s : Z) : Z * Z :=
  match fuel with
  | O => (d, s)
  | S fuel' => if d mod 10 =? 0 then drop_zeros fuel' (d / 10) (s + 1) else (d, s)
  end.

(** The shortest digits of the positive value [m * 2 ^ e] and the position
    of its decimal point: the value reads [0.d1d2...dn * 10 ^ decpt]. *)
Definition shortest_digits (m : positive) (e : Z) : text * Z :=
  let x := S754_finite false m e in
  let '(num, den) :=
    if 0 <=? e then (Zpos m * 2 ^ e, 1) else (Zpos m, 2 ^ (- e)) in
  let k := floor_log10 num den in
  let '(d, s) := shortest_from 17 x num den k 1 in
  let '(d, s) := drop_zeros 17 d s in
  let ds := digits_of d in
  (ds, Z.of_nat (length ds) + s).

Definition zeros (n : Z) : text := repeat "0"%char (Z.to_nat n).

(** The exponent of the scientific notation: a sign and at least two
    digits. *)
Definition exponent_text (e : Z) : text :=
  (if e <? 0 then "-"%char else "+"%char)
    :: (if Z.abs e <? 10 then ["0"%char] else []) ++ digits_of (Z.abs e).

(** [repr] lays the digits out in scientific notation when the decimal
    point would fall more than three places before them or after the
    sixteenth place, and in plain notation, with [.0] added to an integer,
    otherwise. *)
Definition layout (ds : text) (decpt : Z) : text :=
  let n := Z.of_nat (length ds) in
  if (decpt <=? -4) || (16 <? decpt) then
    match ds with
    | [] => []
    | d1 :: rest =>
        d1 :: (match rest with [] => [] | _ => "."%char :: rest end)
           ++ "e"%char :: exponent_text (decpt - 1)
    end
  else if decpt <=? 0 then
    "0"%char :: "."%char :: zeros (- decpt) ++ ds
  else if n <=? decpt then
    ds ++ zeros (decpt - n) ++ [ "."%char; "0"%char ]
  else
    take (Z.to_nat decpt) ds ++ "."%char :: drop (Z.to_nat decpt) ds.

Definition sign_text (neg : bool) : text := if neg then ["-"%char] else [].

(** [str(x)] and [repr(x)] for a float. *)
Definition str_float (x : float64) : text :=
  match x with
  | S754_nan => txt "nan"
  | S754_infinity neg => sign_text neg ++ txt "inf"
  | S754_zero neg => sign_text neg ++ txt "0.0"
  | S754_finite neg m e =>
      let '(ds, decpt) := shortest_digits m e in
      sign_text neg ++ layout ds decpt
  end.

End PyFloat.

Import PyText.

(** ** Cells, rows and data frames *)

Inductive month :=
| January | February | March | April | May | June
| July | August | September | October | November | December.

(** What the program reads of a pandas [Timestamp]. *)
Record timestamp := { ts_year : Z; ts_month : month; ts_day : Z }.

(** A cell of a data frame: a float (the missing value of a numeric or text
    column is the float NaN), an integer, a boolean, a text, or a cell of a
    datetime column, whose missing value is NaT ([CTime None]). *)
Inductive cell :=
| CFloat (x : PyFloat.float64)
| CInt (n : Z)
| CBool (b : bool)
| CStr (s : string)
| CTime (t : option timestamp).

Definition NaN : cell := CFloat PyFloat.nan.

(** [pd.isna(val)] on a scalar. *)
Definition isna (val : cell) : bool :=
  match val with
  | CFloat x => PyFloat.is_nan x
  | CTime None => true
  | _ => false
  end.

Definition notna (val : cell) : bool := negb (isna val).

(** Python exceptions the program can meet. *)
Inductive exn :=
| KeyError (label : string)
| AttributeError
| TypeError
| ValueError.

Inductive result (A : Type) :=
| Ok (a : A)
| Raise (e : exn).
Arguments Ok {A} a.
Arguments Raise {A} e.

#[global] Instance result_ret : MRet result := fun A a => Ok a.

#[global] Instance result_bind : MBind result := fun A B k r =>
  match r with
  | Ok a => k a
  | Raise e => Raise e
  end.

Abbreviation row := (gmap string cell).

(** A data frame: the column labels in order, and the records.  A record maps
    a label to its cell, and a label of the frame that a record lacks reads as
    a missing value.  [read_csv] returns a table with distinct labels.  A
    renaming onto a label that is already there leaves two columns under one
    label: the list of labels then has the label twice, and a record holds
    the cell of one of the two columns only; the program reads such a label
    in the sidebar first ([unique_values]), where it raises. *)
Record DataFrame := { columns : list string; rows : list row }.

Definition row_get (c : string) (r : row) : cell := default NaN (r !! c).

(** [c in df.columns] *)
Definition has_col (c : string) (df : DataFrame) : bool :=
  bool_decide (c ∈ columns df).

(** [df[c]]: the cells of a column, [KeyError] when there is no such label. *)
Definition column (c : string) (df : DataFrame) : result (list cell) :=
  if has_col c df then Ok (map (row_get c) (rows df)) else Raise (KeyError c).

(** [df[c] = vals]: the column is replaced, or added as the last one. *)
Definition set_column (c : string) (vals : list cell) (df : DataFrame) : DataFrame :=
  {| columns := if has_col c df then columns df else columns df ++ [c];
     rows := zip_with (fun r v => <[c := v]> r) (rows df) vals |}.

(** [df[c] = v] for a scalar [v], given to every record. *)
Definition set_scalar (c : string) (v : cell) (df : DataFrame) : DataFrame :=
  set_column c (map (fun _ => v) (rows df)) df.

(** One entry of [rename(columns=...)]: the cell under [old] moves under
    [new].  When the record has a cell under [new] already, pandas keeps both
    columns; the record keeps the cell that moved. *)
Definition rename_row (old new : string) (r : row) : row :=
  match r !! old with
  | Some v => <[new := v]> (delete old r)
  | None => r
  end.

Definition rename_label (old new c : string) : string :=
  if String.eqb c old then new else c.

Definition rename_column (old new : string) (df : DataFrame) : DataFrame :=
  {| columns := map (rename_label old new) (columns df);
     rows := map (rename_row old new) (rows df) |}.

(** [df[mask]]: the records whose mask entry holds. *)
Definition select (p : row -> bool) (df : DataFrame) : DataFrame :=
  {| columns := columns df; rows := List.filter p (rows df) |}.

Fixpoint traverse {A B : Type} (f : A -> result B) (l : list A) : result (list B) :=
  match l with
  | [] => Ok []
  | a :: l' => b ← f a; bs ← traverse f l'; Ok (b :: bs)
  end.

(** [df[c] = df[c].apply(f)] *)
Definition apply_column (c : string) (f : cell -> cell) (df : DataFrame) : result DataFrame :=
  vals ← column c df; Ok (set_column c (map f vals) df).

(** ** Numbers in cells *)

(** [str(val)].  The text of a timestamp is a date and a time of day, which is
    never a float literal; the text of the missing timestamp stands in for
    it, and no column that [clean_numeric] is applied to holds timestamps. *)
Definition py_str (val : cell) : PyText.text :=
  match val with
  | CFloat x => PyFloat.str_float x
  | CInt n => PyText.str_int n
  | CBool b => if b then txt "True" else txt "False"
  | CStr s => txt s
  | CTime _ => txt "NaT"
  end.

(** The cell as a number, for arithmetic on a column: a text or a date in a
    numeric reduction raises [TypeError]. *)
Definition as_float (val : cell) : result PyFloat.float64 :=
  match val with
  | CFloat x => Ok x
  | CInt n => Ok (PyFloat.of_Z n)
  | CBool b => Ok (PyFloat.of_Z (if b then 1 else 0))
  | CStr _ | CTime _ => Raise TypeError
  end.

(** The mean that skips missing values: the present values are added in
    order, starting from zero, and the sum is divided by their number; with
    no present value the mean is missing. *)
Definition present (xs : list PyFloat.float64) : list PyFloat.float64 :=
  List.filter (fun x => negb (PyFloat.is_nan x)) xs.

Definition fsum (xs : list PyFloat.float64) : PyFloat.float64 :=
  fold_left PyFloat.fadd xs (S754_zero false).

Definition nanmean (xs : list PyFloat.float64) : PyFloat.float64 :=
  match present xs with
  | [] => PyFloat.nan
  | ys => PyFloat.fdiv (fsum ys) (PyFloat.of_Z (Z.of_nat (length ys)))
  end.

(** [df[cols].mean(axis=1, skipna=True)]: one mean per record, over the
    cells of the given columns. *)
Definition row_mean (cols : list string) (r : row) : result cell :=
  xs ← traverse (fun c => as_float (row_get c r)) cols; Ok (CFloat (nanmean xs)).

Definition mean_columns (cols : list string) (df : DataFrame) : result (list cell) :=
  match List.find (fun c => negb (has_col c df)) cols with
  | Some c => Raise (KeyError c)
  | None => traverse (row_mean cols) (rows df)
  end.

(** [a - b] on two columns, cell by cell. *)
Definition cell_sub (a b : cell) : result cell :=
  x ← as_float a; y ← as_float b; Ok (CFloat (PyFloat.fsub x y)).

Definition sub_columns (a b : string) (df : DataFrame) : result (list cell) :=
  xs ← column a df; ys ← column b df;
  traverse (fun p => cell_sub p.1 p.2) (zip xs ys).

(** ** The metrics pipeline: [load_data] *)

(** The texts that [clean_numeric] takes for a missing value. *)
Definition sentinels : list string :=
  [""; "N.A."; "N.A"; "NA"; "n.a."; "-"; "None"]%string.

(** [clean_numeric(val)]: the helper that cleans one cell of a rating or
    goal-difference column. *)
Definition clean_numeric (val : cell) : cell :=
  if isna val then NaN
  else
    let s := PyText.strip (py_str val) in
    if bool_decide (string_of_list_ascii s ∈ sentinels) then NaN
    else
      let s := PyText.sub_parens s in
      let s := PyText.strip (PyText.remove_commas s) in
      match PyFloat.py_float s with
      | Some x => CFloat x
      | None => NaN
      end.

Definition month_name (m : month) : string :=
  match m with
  | January => "January" | February => "February" | March => "March"
  | April => "April" | May => "May" | June => "June"
  | July => "July" | August => "August" | September => "September"
  | October => "October" | November => "November" | December => "December"
  end%string.

(** [col.dt.month_name()]: the accessor exists on a datetime column only. *)
Definition dt_month_name (col : list cell) : result (list cell) :=
  traverse (fun v => match v with
                     | CTime (Some t) => Ok (CStr (month_name (ts_month t)))
                     | CTime None => Ok NaN
                     | _ => Raise AttributeError
                     end) col.

(** [col.dt.year]: integers, or floats when a date is missing. *)
Definition dt_year (col : list cell) : result (list cell) :=
  let missing := existsb isna col in
  traverse (fun v => match v with
                     | CTime (Some t) =>
                         Ok (if missing then CFloat (PyFloat.of_Z (ts_year t))
                             else CInt (ts_year t))
                     | CTime None => Ok NaN
                     | _ => Raise AttributeError
                     end) col.

Definition name_has (marker c : string) : bool :=
  PyText.contains (txt marker) (txt c).

Definition lower_has (marker c : string) : bool :=
  PyText.contains (txt marker) (PyText.lower (txt c)).

Definition name_ends (suffix c : string) : bool :=
  PyText.ends_with (txt suffix) (txt c).

Section LoadData.

(** [pd.to_datetime(col, errors="coerce")] is the library's.  [parse_dates
    col] is what it makes of the column [col]: it raises (it does so on some
    columns even with [errors="coerce"]), or it gives the cell that each cell
    of the column becomes.  The cells of a datetime column are [CTime] cells;
    the library can also return a column that is not a datetime column, whose
    cells are of another kind. *)
Variable parse_dates : list cell -> result (cell -> cell).

Definition to_datetime (col : list cell) : result (list cell) :=
  f ← parse_dates col; Ok (map f col).

Definition convert_date (c : string) (df : DataFrame) : result DataFrame :=
  if has_col c df
  then vals ← column c df; dates ← to_datetime vals; Ok (set_column c dates df)
  else Ok df.

(** The renaming of the identity columns, each entry only if its source
    label is present. *)
Definition rename_map (df : DataFrame) : list (string * string) :=
  (if has_col "Name" df then [("Name", "Player_Name")] else [])
  ++ (if has_col "Team Name" df then [("Team Name", "Team")] else [])
  ++ (if has_col "FIFA rating" df then [("FIFA rating", "FIFA_Rating")] else []).

(** [df.rename(columns=m)] *)
Definition rename (m : list (string * string)) (df : DataFrame) : DataFrame :=
  fold_left (fun d p => rename_column p.1 p.2 d) m df.

Definition add_month_year (df : DataFrame) : result DataFrame :=
  if has_col "Date of Injury" df then
    dates ← column "Date of Injury" df;
    months ← dt_month_name dates;
    let df := set_column "Injury_Month" months df in
    dates ← column "Date of Injury" df;
    years ← dt_year dates;
    Ok (set_column "Injury_Year" years df)
  else
    Ok (set_scalar "Injury_Year" NaN (set_scalar "Injury_Month" NaN df)).

Definition rating_cols (df : DataFrame) : list string :=
  List.filter (name_has "Player_rating") (columns df).

Definition gd_cols (df : DataFrame) : list string :=
  List.filter (name_ends "_GD") (columns df).

(** [for c in cols: df[c] = df[c].apply(clean_numeric)] *)
Fixpoint clean_columns (cols : list string) (df : DataFrame) : result DataFrame :=
  match cols with
  | [] => Ok df
  | c :: cols' => df' ← apply_column c clean_numeric df; clean_columns cols' df'
  end.

(** A derived mean column: the mean of the columns of the group, or missing
    for every record when the group is empty. *)
Definition add_mean (name : string) (group : list string) (df : DataFrame) : result DataFrame :=
  match group with
  | [] => Ok (set_scalar name NaN df)
  | _ => vals ← mean_columns group df; Ok (set_column name vals df)
  end.

Definition add_difference (name a b : string) (df : DataFrame) : result DataFrame :=
  vals ← sub_columns a b df; Ok (set_column name vals df).

(** [load_data], from the table that [read_csv] returns. *)
Definition load_data (df : DataFrame) : result DataFrame :=
  df ← convert_date "Date of Injury" df;
  df ← convert_date "Date of return" df;
  let df := rename (rename_map df) df in
  df ← add_month_year df;
  let ratings := rating_cols df in
  let gds := gd_cols df in
  df ← clean_columns (ratings ++ gds) df;
  df ← add_mean "avg_rating_before" (List.filter (lower_has "before") ratings) df;
  df ← add_mean "avg_rating_after" (List.filter (lower_has "after") ratings) df;
  df ← add_difference "rating_change" "avg_rating_after" "avg_rating_before" df;
  df ← add_mean "team_gd_before" (List.filter (lower_has "before") gds) df;
  df ← add_mean "team_gd_missed" (List.filter (lower_has "missed") gds) df;
  add_difference "performance_drop_index" "team_gd_before" "team_gd_missed" df.

End LoadData.

(** ** Comparing cells *)

Definition month_index (m : month) : Z :=
  match m with
  | January => 1 | February => 2 | March => 3 | April => 4 | May => 5
  | June => 6 | July => 7 | August => 8 | September => 9 | October => 10
  | November => 11 | December => 12
  end.

Definition lex (a b : comparison) : comparison :=
  match a with Eq => b | _ => a end.

(** Floats in their order, with zero equal to minus zero; the missing value
    comes last and equals itself. *)
Definition float_compare (x y : PyFloat.float64) : comparison :=
  match SFcompare x y with
  | Some c => c
  | None =>
      match PyFloat.is_nan x, PyFloat.is_nan y with
      | true, true => Eq
      | true, false => Gt
      | _, _ => Lt
      end
  end.

Definition time_compare (a b : option timestamp) : comparison :=
  match a, b with
  | Some s, Some t =>
      lex (ts_year s ?= ts_year t)
          (lex (month_index (ts_month s) ?= month_index (ts_month t))
               (ts_day s ?= ts_day t))
  | Some _, None => Lt
  | None, Some _ => Gt
  | None, None => Eq
  end.

Definition kind_rank (v : cell) : Z :=
  match v with
  | CBool _ => 0 | CInt _ => 1 | CFloat _ => 2 | CStr _ => 3 | CTime _ => 4
  end.

(** The integer [n] against the float [x], as numbers; the missing value
    comes last. *)
Definition int_float_compare (n : Z) (x : PyFloat.float64) : comparison :=
  match x with
  | S754_nan => Lt
  | S754_infinity s => if s then Gt else Lt
  | S754_zero _ => n ?= 0
  | S754_finite s m e =>
      let v := if s then Z.neg m else Z.pos m in
      if 0 <=? e then n ?= v * 2 ^ e else n * 2 ^ (- e) ?= v
  end.

(** The order of the cells of one column.  Numbers are compared as numbers
    whatever their kind, a boolean counting as 0 or 1; texts are compared
    with texts and dates with dates.  Python compares no text with a number
    and no date with either ([py_sorted] raises on such a pair); here they
    are kept apart, and ordered by kind. *)
Definition cell_compare (a b : cell) : comparison :=
  match a, b with
  | CFloat x, CFloat y => float_compare x y
  | CInt m, CInt n => m ?= n
  | CBool x, CBool y => Z.b2z x ?= Z.b2z y
  | CBool x, CInt n => Z.b2z x ?= n
  | CInt m, CBool y => m ?= Z.b2z y
  | CInt m, CFloat y => int_float_compare m y
  | CBool x, CFloat y => int_float_compare (Z.b2z x) y
  | CFloat x, CInt n => CompOpp (int_float_compare n x)
  | CFloat x, CBool y => CompOpp (int_float_compare (Z.b2z y) x)
  | CStr s, CStr t => String.compare s t
  | CTime s, CTime t => time_compare s t
  | _, _ => kind_rank a ?= kind_rank b
  end.

Definition cell_eqb (a b : cell) : bool :=
  match cell_compare a b with Eq => true | _ => false end.

Definition cell_leb (a b : cell) : bool :=
  match cell_compare a b with Gt => false | _ => true end.

(** ** Sorting, distinct values, membership *)

Section Sort.
Context {A : Type} (leb : A -> A -> bool).

(** The sort is stable: an element goes before the first one that it is
    not above, so it stays before its equals that followed it. *)
Fixpoint insert_sorted (x : A) (l : list A) : list A :=
  match l with
  | [] => [x]
  | y :: l' => if leb x y then x :: l else y :: insert_sorted x l'
  end.

Fixpoint sort_by (l : list A) : list A :=
  match l with
  | [] => []
  | x :: l' => insert_sorted x (sort_by l')
  end.
End Sort.

(** The distinct values of a list, at their first occurrence. *)
Fixpoint distinct {A : Type} (eqb : A -> A -> bool) (l : list A) : list A :=
  match l with
  | [] => []
  | x :: l' => x :: List.filter (fun y => negb (eqb x y)) (distinct eqb l')
  end.

(** [col.isin(vals)] on one cell. *)
Definition isin (vals : list cell) (v : cell) : bool := existsb (cell_eqb v) vals.

(** The values that Python compares with one another: the numbers, the
    texts, the dates. *)
Definition comparable (a b : cell) : bool :=
  match a, b with
  | CStr _, CStr _ => true
  | CTime _, CTime _ => true
  | (CFloat _ | CInt _ | CBool _), (CFloat _ | CInt _ | CBool _) => true
  | _, _ => false
  end.

(** [sorted(l)]: [TypeError] when the list holds values that Python does not
    compare with one another. *)
Definition py_sorted (l : list cell) : result (list cell) :=
  match l with
  | [] => Ok []
  | a :: _ =>
      if forallb (comparable a) l then Ok (sort_by cell_leb l) else Raise TypeError
  end.

(** [df[c].dropna().unique()]: when several columns have the label [c],
    [df[c]] is a table, and a table has no [unique]. *)
Definition unique_values (c : string) (df : DataFrame) : result (list cell) :=
  col ← column c df;
  if (1 <? length (List.filter (String.eqb c) (columns df)))%nat
  then Raise AttributeError
  else Ok (distinct cell_eqb (List.filter notna col)).

(** [sorted([v for v in df[c].dropna().unique()])]: the options of a sidebar
    filter. *)
Definition options (c : string) (df : DataFrame) : result (list cell) :=
  vals ← unique_values c df; py_sorted vals.

(** [col.nunique()] *)
Definition nunique (col : list cell) : nat :=
  length (distinct cell_eqb (List.filter notna col)).

(** [df.head(n)] *)
Definition head (n : nat) (df : DataFrame) : DataFrame :=
  {| columns := columns df; rows := take n (rows df) |}.

Definition key_float (c : string) (r : row) : PyFloat.float64 :=
  match row_get c r with CFloat x => x | _ => PyFloat.nan end.

Definition float_geb (x y : PyFloat.float64) : bool := SFleb y x.

(** [df.sort_values(c, ascending=False)] on a float column: the records with
    a value in decreasing order, then the records without a value.  The
    library fixes no order among records of equal value; here they keep the
    order they had, and no property below depends on it.  [TypeError] stands
    for a column that holds anything but floats, which the program never
    sorts by. *)
Definition sort_values_desc (c : string) (df : DataFrame) : result DataFrame :=
  if negb (has_col c df) then Raise (KeyError c)
  else if forallb (fun r => match row_get c r with CFloat _ => true | _ => false end) (rows df)
  then
    let valued := List.filter (fun r => notna (row_get c r)) (rows df) in
    let missing := List.filter (fun r => isna (row_get c r)) (rows df) in
    Ok {| columns := columns df;
          rows := sort_by (fun a b => float_geb (key_float c a) (key_float c b)) valued
                  ++ missing |}
  else Raise TypeError.

(** ** The view composer: [main] *)

(** What the user picks in the three multi-selection boxes of the sidebar:
    for each box, which of its options are selected. *)
Record choices := {
  chosen_seasons : cell -> bool;
  chosen_teams : cell -> bool;
  chosen_players : cell -> bool
}.

(** [st.sidebar.multiselect(label, opts, ...)]: the options selected. *)
Definition multiselect (opts : list cell) (chosen : cell -> bool) : list cell :=
  List.filter chosen opts.

(** The three filter lists of [main]: a box exists only for a column of the
    table, and the list of a column that is absent is empty. *)
Record filters := {
  season_filter : list cell;
  team_filter : list cell;
  player_filter : list cell
}.

(** One box of the sidebar: its options are computed from the column. *)
Definition filter_box (c : string) (chosen : cell -> bool) (df : DataFrame) :
    result (list cell) :=
  if has_col c df
  then opts ← options c df; Ok (multiselect opts chosen)
  else Ok [].

Definition sidebar (df : DataFrame) (ch : choices) : result filters :=
  seasons ← filter_box "Season" (chosen_seasons ch) df;
  teams ← filter_box "Team" (chosen_teams ch) df;
  players ← filter_box "Player_Name" (chosen_players ch) df;
  Ok {| season_filter := seasons; team_filter := teams; player_filter := players |}.

(** [len(xs) > 0], the truth value of a list. *)
Definition truthy {A : Type} (xs : list A) : bool :=
  match xs with [] => false | _ => true end.

(** [filtered[filtered[c].isin(vals)]] *)
Definition keep_isin (c : string) (vals : list cell) (df : DataFrame) : result DataFrame :=
  col ← column c df; Ok (select (fun r => isin vals (row_get c r)) df).

(** The filtered subset, from the filter lists. *)
Definition apply_filters (df : DataFrame) (f : filters) : result DataFrame :=
  let filtered := df in
  filtered ← (if has_col "Season" df && truthy (season_filter f)
              then keep_isin "Season" (season_filter f) filtered
              else Ok filtered);
  filtered ← (if truthy (team_filter f)
              then keep_isin "Team" (team_filter f) filtered
              else Ok filtered);
  if truthy (player_filter f)
  then keep_isin "Player_Name" (player_filter f) filtered
  else Ok filtered.

Definition filtered_subset (df : DataFrame) (ch : choices) : result DataFrame :=
  f ← sidebar df ch; apply_filters df f.

(** What a visual gets: its data, or the notice that [st.info] shows in its
    place. *)
Inductive shown (A : Type) :=
| Shown (a : A)
| Notice (msg : string).
Arguments Shown {A} a.
Arguments Notice {A} msg.

(** *** Summary scalars *)

Definition total_injuries (filtered : DataFrame) : nat := length (rows filtered).

Definition unique_of (c : string) (filtered : DataFrame) : nat :=
  if has_col c filtered then nunique (map (row_get c) (rows filtered)) else O.

(** [filtered["performance_drop_index"].mean()].  The values are added from
    left to right; the library adds a long column by blocks, which can change
    the last bits of the sum. *)
Definition avg_drop (filtered : DataFrame) : result PyFloat.float64 :=
  col ← column "performance_drop_index" filtered;
  xs ← traverse as_float col;
  Ok (nanmean xs).

(** *** Visual 1: the ranking *)

Definition top_drops (filtered : DataFrame) : result (shown DataFrame) :=
  col ← column "performance_drop_index" filtered;
  if (0 <? length (List.filter notna col))%nat
  then sorted ← sort_values_desc "performance_drop_index" filtered;
       Ok (Shown (head 10 sorted))
  else Ok (Notice "No valid performance_drop_index values found to display this chart.").

(** *** Visual 3: the frequency grid *)


(** The grid: the teams of its lines, the months of its columns, and one line
    of counts per team, one count per month. *)
Record grid := {
  grid_teams : list cell;
  grid_months : list string;
  grid_counts : list (list nat)
}.

(** The records that [groupby] keeps: those with no missing key. *)
Definition keyed (keys : list string) (filtered : DataFrame) : list row :=
  List.filter (fun r => forallb (fun k => notna (row_get k r)) keys) (rows filtered).



(** The entry of the grid for a team and a month, if the grid has both. *)
Definition grid_entry (g : grid) (team : cell) (m : string) : option nat :=
  i ← list_find (cell_eqb team) (grid_teams g);
  j ← list_find (String.eqb m) (grid_months g);
  line ← grid_counts g !! i.1;
  line !! j.1.

(** *** Visual 5: the leaderboard *)

Definition pair_compare (a b : cell * cell) : comparison :=
  lex (cell_compare a.1 b.1) (cell_compare a.2 b.2).

Definition pair_eqb (a b : cell * cell) : bool :=
  match pair_compare a b with Eq => true | _ => false end.

Definition pair_leb (a b : cell * cell) : bool :=
  match pair_compare a b with Gt => false | _ => true end.

Definition group_key (r : row) : cell * cell :=
  (row_get "Player_Name" r, row_get "Team" r).

(** The records of one group. *)
Definition members (k : cell * cell) (rs : list row) : list row :=
  List.filter (fun r => pair_eqb (group_key r) k) rs.

(** The aggregation [(c, "count")]: the cells of the group that hold a
    value. *)
Definition group_count (c : string) (rs : list row) : Z :=
  Z.of_nat (length (List.filter (fun r => notna (row_get c r)) rs)).

(** The sum that the group mean keeps, with its correction term: one step
    takes the correction off the value, adds the value to the sum, and
    computes the new correction, which is set to zero when it is not a
    number. *)
Definition kahan_step (acc : PyFloat.float64 * PyFloat.float64) (val : PyFloat.float64) :
    PyFloat.float64 * PyFloat.float64 :=
  let y := PyFloat.fsub val acc.2 in
  let t := PyFloat.fadd acc.1 y in
  let comp := PyFloat.fsub (PyFloat.fsub t acc.1) y in
  (t, if PyFloat.is_nan comp then S754_zero false else comp).

(** The mean of a group: the sum of the values that are present, kept with
    its correction term, divided by their number; missing when none is
    present. *)
Definition group_mean_value (xs : list PyFloat.float64) : PyFloat.float64 :=
  match present xs with
  | [] => PyFloat.nan
  | ys =>
      PyFloat.fdiv (fold_left kahan_step ys (S754_zero false, S754_zero false)).1
                   (PyFloat.of_Z (Z.of_nat (length ys)))
  end.

(** The aggregation [(c, "mean")]. *)
Definition group_mean (c : string) (rs : list row) : result cell :=
  xs ← traverse (fun r => as_float (row_get c r)) rs; Ok (CFloat (group_mean_value xs)).

Definition require_col (c : string) (df : DataFrame) : result unit :=
  if has_col c df then Ok () else Raise (KeyError c).

Definition board_columns : list string :=
  ["Player_Name"; "Team"; "Injuries_Count";
   "Avg_Rating_Before"; "Avg_Rating_After"; "Avg_Rating_Change"]%string.

Definition board_row (count_col : string) (rs : list row) (k : cell * cell) : result row :=
  let g := members k rs in
  before ← group_mean "avg_rating_before" g;
  after ← group_mean "avg_rating_after" g;
  change ← group_mean "rating_change" g;
  Ok (<["Player_Name" := k.1]> (<["Team" := k.2]>
       (<["Injuries_Count" := CInt (group_count count_col g)]>
         (<["Avg_Rating_Before" := before]> (<["Avg_Rating_After" := after]>
           (<["Avg_Rating_Change" := change]> ∅)))))).

(** [groupby(["Player_Name", "Team"]).agg(...).reset_index()]: one record per
    group, the groups in the order of their keys. *)
Definition grouped (filtered : DataFrame) : result DataFrame :=
  _ ← require_col "Player_Name" filtered;
  _ ← require_col "Team" filtered;
  let count_col := if has_col "Injury" filtered then "Injury" else "Player_Name" in
  _ ← require_col "avg_rating_before" filtered;
  _ ← require_col "avg_rating_after" filtered;
  _ ← require_col "rating_change" filtered;
  let rs := keyed ["Player_Name"; "Team"] filtered in
  let keys := sort_by pair_leb (distinct pair_eqb (map group_key rs)) in
  lines ← traverse (board_row count_col rs) keys;
  Ok {| columns := board_columns; rows := lines |}.

Definition leaderboard (filtered : DataFrame) : result (shown DataFrame) :=
  if has_col "Player_Name" filtered && has_col "rating_change" filtered then
    board ← grouped filtered;
    sorted ← sort_values_desc "Avg_Rating_Change" board;
    Ok (Shown (head 15 sorted))
  else Ok (Notice "Not enough information to build the comeback leaderboard.").

Import PyFloat.

(** ** Notions that the properties are stated with *)

(** The missing-value texts as the specification lists them, to be matched
    whatever the case of the letters. *)
Definition spec_sentinels : list string :=
  [""; "N.A."; "N.A"; "NA"; "-"; "None"]%string.

(** A text matches a missing-value text: once trimmed it is one of them, up to
    the case of its letters. *)
Definition sentinel_match (s : string) : Prop :=
  ∃ t, t ∈ spec_sentinels ∧ lower (strip (txt s)) = lower (txt t).

(** What [clean_numeric] does of a cell that holds a value, from the trimmed
    text of the cell on. *)
Definition clean_text (w : text) : cell :=
  if bool_decide (string_of_list_ascii w ∈ sentinels) then NaN
  else match PyFloat.py_float (strip (remove_commas (sub_parens w))) with
       | Some x => CFloat x
       | None => NaN
       end.

Definition upper_char (d : ascii) : ascii := ascii_of_N (code d - 32).

(** The characters that the text of a float is made of. *)
Definition repr_char (c : ascii) : bool :=
  is_digit c || existsb (Ascii.eqb c) (txt ".e+-infa").

(** The float of a cell reads back from its text, [float(str(x)) == x], which
    Python grants for every float. *)
Definition reads_back (v : cell) : Prop :=
  ∀ x, v = CFloat x → PyFloat.is_nan x = false →
       PyFloat.py_float (PyFloat.str_float x) = Some x.

(** *** The closed form of [load_data] *)

(** [df[c] = g(record)], record by record. *)
Definition with_col (c : string) (g : row → cell) (df : DataFrame) : DataFrame :=
  {| columns := if has_col c df then columns df else columns df ++ [c];
     rows := map (fun r => <[c := g r]> r) (rows df) |}.

Definition is_float (v : cell) : Prop := ∃ x, v = CFloat x.

Definition col_all (P : cell → Prop) (c : string) (df : DataFrame) : Prop :=
  ∀ r, r ∈ rows df → P (row_get c r).

Abbreviation float_col := (col_all is_float).

Definition mean_cell (group : list string) (r : row) : cell :=
  match group with
  | [] => NaN
  | _ => CFloat (nanmean (map (fun c => key_float c r) group))
  end.

Definition diff_cell (a b : string) (r : row) : cell :=
  CFloat (fsub (key_float a r) (key_float b r)).

Definition clean_frame (cols : list string) (df : DataFrame) : DataFrame :=
  fold_left (fun d c => with_col c (fun r => clean_numeric (row_get c r)) d) cols df.

Definition month_cell (v : cell) : cell :=
  match v with
  | CTime (Some t) => CStr (month_name (ts_month t))
  | _ => NaN
  end.

Definition year_cell (missing : bool) (v : cell) : cell :=
  match v with
  | CTime (Some t) =>
      if missing then CFloat (of_Z (ts_year t)) else CInt (ts_year t)
  | _ => NaN
  end.

Definition is_time (v : cell) : Prop := ∃ t, v = CTime t.

Abbreviation time_col := (col_all is_time).

Definition month_year (df : DataFrame) : DataFrame :=
  if has_col "Date of Injury" df then
    with_col "Injury_Year"
      (fun r => year_cell (existsb isna (map (row_get "Date of Injury") (rows df)))
                          (row_get "Date of Injury" r))
      (with_col "Injury_Month" (fun r => month_cell (row_get "Date of Injury" r)) df)
  else with_col "Injury_Year" (fun _ => NaN) (with_col "Injury_Month" (fun _ => NaN) df).

(** What a cell [v] of the column [col] becomes in a date conversion that
    does not raise. *)
Definition conversion (parse_dates : list cell → result (cell → cell))
    (col : list cell) (v : cell) : cell :=
  match parse_dates col with
  | Ok f => f v
  | Raise _ => v
  end.

Section ClosedForm.
Variable date_of : list cell → cell → cell.

Definition date_cell (col : list cell) (v : cell) : cell := date_of col v.

Definition with_date (c : string) (df : DataFrame) : DataFrame :=
  if has_col c df
  then with_col c (fun r => date_cell (map (row_get c) (rows df)) (row_get c r)) df
  else df.

End ClosedForm.


Definition derive (ratings gds : list string) (df : DataFrame) : DataFrame :=
  let df := with_col "avg_rating_before"
              (mean_cell (List.filter (lower_has "before") ratings)) df in
  let df := with_col "avg_rating_after"
              (mean_cell (List.filter (lower_has "after") ratings)) df in
  let df := with_col "rating_change"
              (diff_cell "avg_rating_after" "avg_rating_before") df in
  let df := with_col "team_gd_before"
              (mean_cell (List.filter (lower_has "before") gds)) df in
  let df := with_col "team_gd_missed"
              (mean_cell (List.filter (lower_has "missed") gds)) df in
  with_col "performance_drop_index" (diff_cell "team_gd_before" "team_gd_missed") df.

Definition ready (cols : list string) (df : DataFrame) : Prop :=
  ∀ c, c ∈ cols → has_col c df = true ∧ float_col c df.

(** The cleaning and the derived metrics, on the table that has its dates,
    its renamed columns and its month and year. *)
Definition finish (df : DataFrame) : DataFrame :=
  let ratings := rating_cols df in
  let gds := gd_cols df in
  derive ratings gds (clean_frame (ratings ++ gds) df).

Section ClosedFormEnrich.
Variable date_of : list cell → cell → cell.

Definition prepared (raw : DataFrame) : DataFrame :=
  let d := with_date date_of "Date of return"
             (with_date date_of "Date of Injury" raw) in
  month_year (rename (rename_map d) d).

Definition enrich (raw : DataFrame) : DataFrame := finish (prepared raw).

End ClosedFormEnrich.

(** [df'] has one record per record of [df], in the same order, and each
    agrees with the record it comes from outside the labels [L]. *)
Definition stage (L : list string) (df df' : DataFrame) : Prop :=
  ∃ f : row → row,
    rows df' = map f (rows df) ∧ ∀ r c, c ∉ L → row_get c (f r) = row_get c r.

Definition derived_labels : list string :=
  ["avg_rating_before"; "avg_rating_after"; "rating_change";
   "team_gd_before"; "team_gd_missed"; "performance_drop_index"]%string.

Definition prepared_labels : list string :=
  ["Date of Injury"; "Date of return"; "Name"; "Player_Name"; "Team Name";
   "Team"; "FIFA rating"; "FIFA_Rating"; "Injury_Month"; "Injury_Year"]%string.

Definition is_numeric_label (c : string) : bool :=
  name_has "Player_rating" c || name_ends "_GD" c.

(** The derived cells of a record, in terms of the record itself. *)
Definition derived_ok (ratings gds : list string) (r : row) : Prop :=
  row_get "avg_rating_before" r = mean_cell (List.filter (lower_has "before") ratings) r
  ∧ row_get "avg_rating_after" r = mean_cell (List.filter (lower_has "after") ratings) r
  ∧ row_get "rating_change" r = diff_cell "avg_rating_after" "avg_rating_before" r
  ∧ row_get "team_gd_before" r = mean_cell (List.filter (lower_has "before") gds) r
  ∧ row_get "team_gd_missed" r = mean_cell (List.filter (lower_has "missed") gds) r
  ∧ row_get "performance_drop_index" r = diff_cell "team_gd_before" "team_gd_missed" r.




Definition passes (c : string) (vals : list cell) (r : row) : bool :=
  negb (truthy vals) || isin vals (row_get c r).

Definition float_rank (x : float64) : Z * Z * Z :=
  match x with
  | S754_infinity true => (-2, 0, 0)
  | S754_finite true m e => (-1, - e, - Z.pos m)
  | S754_zero _ => (0, 0, 0)
  | S754_finite false m e => (1, e, Z.pos m)
  | S754_infinity false => (2, 0, 0)
  | S754_nan => (3, 0, 0)
  end.

Definition rank_le (a b : Z * Z * Z) : Prop :=
  a.1.1 < b.1.1 ∨ (a.1.1 = b.1.1 ∧ (a.1.2 < b.1.2 ∨ (a.1.2 = b.1.2 ∧ a.2 <= b.2))).

Definition desc_order (c : string) (a b : row) : Prop :=
  isna (row_get c b) = true
  ∨ (notna (row_get c a) = true ∧ notna (row_get c b) = true
     ∧ float_geb (key_float c a) (key_float c b) = true).


(** ** A sample table *)

(** A small table, its date conversion and a selection in the sidebar, on
    which the hypotheses of the properties are met. *)
Definition sample_date : timestamp :=
  {| ts_year := 2023; ts_month := March; ts_day := 14 |}.

Definition sample_dates (col : list cell) : result (cell → cell) :=
  Ok (fun v => if isna v then CTime None else CTime (Some sample_date)).

Definition sample_record (name team season date before after gd_before gd_missed : cell) : row :=
  <["Name" := name]> (<["Team Name" := team]> (<["Season" := season]>
    (<["Date of Injury" := date]>
      (<["Match1_before_injury_Player_rating" := before]>
        (<["Match1_after_injury_Player_rating" := after]>
          (<["Match1_before_injury_GD" := gd_before]>
            (<["Match1_missed_match_1_GD" := gd_missed]> ∅))))))).

Definition sample_table : DataFrame :=
  {| columns := ["Name"; "Team Name"; "Season"; "Date of Injury";
                 "Match1_before_injury_Player_rating";
                 "Match1_after_injury_Player_rating";
                 "Match1_before_injury_GD"; "Match1_missed_match_1_GD"]%string;
     rows := [ sample_record (CStr "A. Player") (CStr "Rovers") (CStr "2022/23")
                 (CStr "Mar 14, 2023") (CStr "7.5") (CStr "6 (est)") (CInt 2) (CInt (-1));
               sample_record (CStr "B. Player") (CStr "United") (CStr "2022/23")
                 NaN (CStr "N.A.") (CFloat (of_Z 7)) (CStr "-") (CInt 1) ] |}.

Definition sample_choices : choices :=
  {| chosen_seasons := fun _ => true;
     chosen_teams := fun _ => false;
     chosen_players := fun _ => false |}.

(** A date conversion that raises. *)
Definition refused_dates (col : list cell) : result (cell → cell) := Raise ValueError.

Definition sample_enriched : DataFrame := enrich (conversion sample_dates) sample_table.


Definition sample_filtered : DataFrame :=
  select (fun r => isin [CStr "2022/23"] (row_get "Season" r)) sample_enriched.





(** A record of a player without a team. *)
Definition teamless_record : row :=
  <["Player_Name" := CStr "C. Player"]> (<["Team" := NaN]>
    (<["rating_change" := CFloat (of_Z 1)]> ∅)).









(** * Properties *)

(** ** Texts and floats *)

Lemma clean_numeric_str s : clean_numeric (CStr s) = clean_text (strip (txt s)).
Proof. reflexivity. Qed.

Lemma lower_char_pre c d : lower_char c = d → c = d ∨ c = upper_char d.
Proof.
  intros <-.
  destruct c as [[] [] [] [] [] [] [] []]; vm_compute; auto.
Qed.

Lemma lower_pre w l :
  lower w = l → Forall2 (fun c d => c = d ∨ c = upper_char d) w l.
Proof.
  intros <-. induction w as [| c w IH]; constructor; auto using lower_char_pre.
Qed.

Ltac split_variants H :=
  repeat match type of H with
  | Forall2 _ _ (_ :: _) =>
      let c := fresh "c" in let w := fresh "w" in let Hc := fresh "Hc" in
      apply Forall2_cons_inv_r in H as (c & w & Hc & H & ->);
      destruct Hc as [-> | ->]
  end;
  apply Forall2_nil_inv_r in H as ->.

Lemma clean_text_any_case w t :
  t ∈ spec_sentinels → lower w = lower (txt t) → clean_text w = NaN.
Proof.
  intros Ht Hl. apply lower_pre in Hl. unfold spec_sentinels in Ht.
  repeat (apply elem_of_cons in Ht as [-> | Ht]);
    [ .. | by apply elem_of_nil in Ht ];
    match type of Hl with
    | Forall2 _ _ ?l => let v := eval vm_compute in l in change l with v in Hl
    end;
    split_variants Hl; vm_compute; reflexivity.
Qed.

Lemma string_text_inv (w : text) (t : string) :
  string_of_list_ascii w = t → w = txt t.
Proof.
  intros <-. unfold txt. by rewrite list_ascii_of_string_of_list_ascii.
Qed.

Lemma clean_text_parsed w x :
  py_float (strip (remove_commas (sub_parens w))) = Some x →
  clean_text w = CFloat x.
Proof.
  intros Hx. unfold clean_text. case_bool_decide as Hs.
  - exfalso. unfold sentinels in Hs.
    repeat (apply elem_of_cons in Hs as [Hs | Hs];
            [ apply string_text_inv in Hs; subst w; vm_compute in Hx; discriminate Hx | ]).
    by apply elem_of_nil in Hs.
  - by rewrite Hx.
Qed.

Lemma repr_char_plain c :
  repr_char c = true →
  is_space c = false ∧ c ≠ "("%char ∧ c ≠ ","%char.
Proof.
  destruct c as [[] [] [] [] [] [] [] []]; vm_compute; intros H;
    try discriminate H; repeat split; discriminate.
Qed.

Lemma digit_char_repr n : repr_char (ascii_of_N (Z.to_N (48 + n mod 10))) = true.
Proof.
  pose proof (Z.mod_pos_bound n 10 eq_refl) as Hb.
  assert (n mod 10 = 0 ∨ n mod 10 = 1 ∨ n mod 10 = 2 ∨ n mod 10 = 3
          ∨ n mod 10 = 4 ∨ n mod 10 = 5 ∨ n mod 10 = 6 ∨ n mod 10 = 7
          ∨ n mod 10 = 8 ∨ n mod 10 = 9) as Hc by lia.
  repeat destruct Hc as [-> | Hc]; try rewrite Hc; reflexivity.
Qed.

Lemma digits_fuel_repr fuel n acc :
  Forall (fun c => repr_char c = true) acc →
  Forall (fun c => repr_char c = true) (digits_fuel fuel n acc).
Proof.
  revert n acc. induction fuel as [| fuel IH]; intros n acc Hacc; simpl; [done |].
  destruct (n / 10 =? 0).
  - constructor; [apply digit_char_repr | done].
  - apply IH. constructor; [apply digit_char_repr | done].
Qed.

Lemma digits_of_repr n : Forall (fun c => repr_char c = true) (digits_of n).
Proof. apply digits_fuel_repr. constructor. Qed.

Lemma zeros_repr n : Forall (fun c => repr_char c = true) (zeros n).
Proof. unfold zeros. apply Forall_forall. intros c Hc. apply list_elem_of_In, repeat_spec in Hc. by subst. Qed.

Lemma exponent_text_repr e : Forall (fun c => repr_char c = true) (exponent_text e).
Proof.
  unfold exponent_text. constructor; [by destruct (e <? 0) |].
  apply Forall_app. split; [destruct (Z.abs e <? 10); repeat constructor |].
  apply digits_of_repr.
Qed.

Lemma layout_repr ds decpt :
  Forall (fun c => repr_char c = true) ds →
  Forall (fun c => repr_char c = true) (layout ds decpt).
Proof.
  intros Hds. unfold layout.
  destruct ((decpt <=? -4) || (16 <? decpt)).
  - destruct ds as [| d1 rest]; [constructor |].
    apply Forall_cons in Hds as [H1 Hr]. constructor; [done |].
    apply Forall_app. split.
    + destruct rest; [constructor |]. by constructor.
    + constructor; [done | apply exponent_text_repr].
  - destruct (decpt <=? 0).
    + repeat (constructor; [done |]). apply Forall_app. split; [apply zeros_repr | done].
    + destruct (Z.of_nat (length ds) <=? decpt).
      * apply Forall_app. split; [done |]. apply Forall_app. split; [apply zeros_repr |].
        repeat constructor.
      * apply Forall_app. split; [by apply Forall_take |].
        constructor; [done | by apply Forall_drop].
Qed.

Lemma str_float_repr x : Forall (fun c => repr_char c = true) (str_float x).
Proof.
  destruct x as [s | s | | s m e]; simpl.
  - destruct s; repeat constructor.
  - destruct s; repeat constructor.
  - repeat constructor.
  - destruct (shortest_digits m e) as [ds decpt] eqn:Hsd.
    apply Forall_app. split; [destruct s; repeat constructor |].
    apply layout_repr.
    unfold shortest_digits in Hsd.
    destruct (if 0 <=? e then _ else _) as [num den].
    destruct (shortest_from _ _ _ _ _ _) as [d s1].
    destruct (drop_zeros _ _ _) as [d' s'].
    injection Hsd as <- _. apply digits_of_repr.
Qed.

Lemma drop_while_id p (l : text) :
  Forall (fun c => p c = false) l → drop_while p l = l.
Proof. destruct 1 as [| c l Hc _]; simpl; [done | by rewrite Hc]. Qed.

Lemma strip_id (l : text) :
  Forall (fun c => is_space c = false) l → strip l = l.
Proof.
  intros Hl. unfold strip, strip_with.
  rewrite (drop_while_id _ l Hl).
  rewrite drop_while_id; [apply rev_involutive |].
  apply Forall_forall. intros c Hc. apply list_elem_of_In, in_rev, list_elem_of_In in Hc.
  by eapply Forall_forall in Hl.
Qed.

Lemma sub_parens_id (l : text) :
  Forall (fun c => c ≠ "("%char) l → sub_parens l = l.
Proof.
  unfold sub_parens. induction 1 as [| c l Hc _ IH]; simpl; [done |].
  apply Ascii.eqb_neq in Hc. by rewrite Hc, IH.
Qed.

Lemma remove_commas_id (l : text) :
  Forall (fun c => c ≠ ","%char) l → remove_commas l = l.
Proof.
  unfold remove_commas. induction 1 as [| c l Hc _ IH]; [done |].

  by rewrite filter_cons_True, IH.
Qed.

Lemma clean_text_float_text x :
  py_float (str_float x) = Some x → clean_text (strip (str_float x)) = CFloat x.
Proof.
  intros Hx. pose proof (str_float_repr x) as Hr.
  assert (Forall (fun c => is_space c = false) (str_float x)) as Hs.
  { eapply Forall_impl; [exact Hr |]. intros c Hc. by apply repr_char_plain in Hc as (? & _). }
  assert (Forall (fun c => c ≠ "("%char) (str_float x)) as Hp.
  { eapply Forall_impl; [exact Hr |]. intros c Hc. by apply repr_char_plain in Hc as (_ & ? & _). }
  assert (Forall (fun c => c ≠ ","%char) (str_float x)) as Hc.
  { eapply Forall_impl; [exact Hr |]. intros c Hc. by apply repr_char_plain in Hc as (_ & _ & ?). }
  rewrite (strip_id _ Hs). apply clean_text_parsed.
  by rewrite (sub_parens_id _ Hp), (remove_commas_id _ Hc), (strip_id _ Hs).
Qed.

Lemma clean_numeric_float x :
  reads_back (CFloat x) → clean_numeric (CFloat x) = CFloat x.
Proof.
  intros Hx. destruct (is_nan x) eqn:Hn.
  - destruct x; try discriminate Hn. reflexivity.
  - unfold clean_numeric. simpl isna. rewrite Hn.
    change (clean_text (strip (str_float x)) = CFloat x).
    apply clean_text_float_text. by apply Hx.
Qed.

Lemma clean_numeric_is_float val : ∃ x, clean_numeric val = CFloat x.
Proof.
  unfold clean_numeric. destruct (isna val); [by eexists |].
  case_bool_decide; [by eexists |].
  destruct (py_float _); by eexists.
Qed.

(** C3: the numeric cleaner gives the missing value for every text that, once
    trimmed, is one of the missing-value texts (the empty text, N.A., N.A, NA,
    the dash, None) in any case of its letters; it reads 1,234 as 1234.0 and
    85 (S) as 85.0; and a text in which the cleaned characters spell a number
    is given that number: the match with a missing-value text is on the whole
    trimmed text, so a dash or another such text inside a number does not
    make it missing (-5 is read as -5.0, 1e-5 as 0.00001). *)
Theorem clean_numeric_sentinels_and_numbers (s : string) :
  (sentinel_match s → clean_numeric (CStr s) = NaN)
  ∧ (∀ x, py_float (strip (remove_commas (sub_parens (strip (txt s))))) = Some x →
          clean_numeric (CStr s) = CFloat x)
  ∧ clean_numeric (CStr "1,234") = CFloat (of_Z 1234)
  ∧ clean_numeric (CStr "85 (S)") = CFloat (of_Z 85)
  ∧ clean_numeric (CStr "-5") = CFloat (of_Z (-5))
  ∧ clean_numeric (CStr "1e-5") = CFloat (of_decimal false 1 (-5)).
Proof.
  split; [| split; [| by vm_compute]].
  - intros (t & Ht & Hl). rewrite clean_numeric_str.
    by apply (clean_text_any_case _ t).
  - intros x Hx. rewrite clean_numeric_str. by apply clean_text_parsed.
Qed.

Lemma clean_text_float_text_inv x :
  is_nan x = false →
  clean_text (strip (str_float x)) = CFloat x → py_float (str_float x) = Some x.
Proof.
  intros Hn. pose proof (str_float_repr x) as Hr.
  assert (Forall (fun c => is_space c = false) (str_float x)) as Hs.
  { eapply Forall_impl; [exact Hr |]. intros c Hc. by apply repr_char_plain in Hc as (? & _). }
  assert (Forall (fun c => c ≠ "("%char) (str_float x)) as Hp.
  { eapply Forall_impl; [exact Hr |]. intros c Hc. by apply repr_char_plain in Hc as (_ & ? & _). }
  assert (Forall (fun c => c ≠ ","%char) (str_float x)) as Hc.
  { eapply Forall_impl; [exact Hr |]. intros c Hc. by apply repr_char_plain in Hc as (_ & _ & ?). }
  rewrite (strip_id _ Hs). unfold clean_text.
  rewrite (sub_parens_id _ Hp), (remove_commas_id _ Hc), (strip_id _ Hs).
  case_bool_decide.
  - intros [= <-]. discriminate Hn.
  - destruct (py_float (str_float x)) as [y |]; [by intros [= ->] |].
    intros [= <-]. discriminate Hn.
Qed.

(** X9: cleaning a cleaned cell again gives the same cell exactly when the
    text of the cleaned number reads back as that number.  A cleaned cell is
    the missing value, which stays missing, or a float; on the text of a float
    the missing-value test, the removal of parentheses and the removal of
    commas change nothing, so the second cleaning is [float(str(x))]. *)
Theorem recleaning_reads_back (val : cell) :
  clean_numeric (clean_numeric val) = clean_numeric val
  ↔ reads_back (clean_numeric val).
Proof.
  split; [| destruct (clean_numeric_is_float val) as [x ->]; apply clean_numeric_float].
  destruct (clean_numeric_is_float val) as [x ->].
  intros H y [= <-] Hn. apply clean_text_float_text_inv; [done |].
  unfold clean_numeric in H. simpl isna in H. rewrite Hn in H. exact H.
Qed.

(** ** Data frames and the stages of [load_data] *)

Lemma traverse_ok {A B : Type} (f : A → result B) (g : A → B) (l : list A) :
  (∀ a, a ∈ l → f a = Ok (g a)) → traverse f l = Ok (map g l).
Proof.
  induction l as [| a l IH]; intros H; simpl; [done |].
  rewrite (H a) by (apply elem_of_cons; by left). simpl.
  rewrite IH; [done |]. intros b Hb. apply H. apply elem_of_cons. by right.
Qed.

Lemma zip_with_map_r {A B C : Type} (f : A → B → C) (g : A → B) (l : list A) :
  zip_with f l (map g l) = map (fun a => f a (g a)) l.
Proof. induction l as [| a l IH]; simpl; [done | by rewrite IH]. Qed.

Lemma set_column_map c (g : row → cell) df :
  set_column c (map g (rows df)) df = with_col c g df.
Proof. unfold set_column, with_col. by rewrite zip_with_map_r. Qed.

Lemma set_scalar_with_col c v df : set_scalar c v df = with_col c (fun _ => v) df.
Proof. unfold set_scalar. apply set_column_map. Qed.

Lemma row_get_insert c v (r : row) : row_get c (<[c := v]> r) = v.
Proof. unfold row_get. by rewrite lookup_insert_eq. Qed.

Lemma row_get_insert_ne c c' v (r : row) :
  c' ≠ c → row_get c (<[c' := v]> r) = row_get c r.
Proof. intros Hne. unfold row_get. by rewrite lookup_insert_ne. Qed.

Lemma has_col_iff c df : has_col c df = true ↔ c ∈ columns df.
Proof. unfold has_col. apply bool_decide_eq_true. Qed.

Lemma has_col_with_col c c' g df :
  has_col c df = true → has_col c (with_col c' g df) = true.
Proof.
  rewrite !has_col_iff. unfold with_col. simpl.
  destruct (has_col c' df); [done |]. intros H. apply elem_of_app. by left.
Qed.

Lemma has_col_with_col_same c g df : has_col c (with_col c g df) = true.
Proof.
  rewrite has_col_iff. unfold with_col. simpl.
  destruct (has_col c df) eqn:H.
  - by apply has_col_iff.
  - apply elem_of_app. right. by apply list_elem_of_singleton.
Qed.

Lemma column_ok c df :
  has_col c df = true → column c df = Ok (map (row_get c) (rows df)).
Proof. intros H. unfold column. by rewrite H. Qed.

Lemma apply_column_ok c f df :
  has_col c df = true →
  apply_column c f df = Ok (with_col c (fun r => f (row_get c r)) df).
Proof.
  intros H. unfold apply_column. rewrite (column_ok _ _ H). simpl.
  by rewrite map_map, set_column_map.
Qed.

Lemma elem_of_rows_with_col r c g df :
  r ∈ rows (with_col c g df) ↔ ∃ r0, r = <[c := g r0]> r0 ∧ r0 ∈ rows df.
Proof.
  unfold with_col. simpl. rewrite list_elem_of_In, in_map_iff.
  split; intros (r0 & H1 & H2); exists r0; split; try done; by apply list_elem_of_In.
Qed.

Lemma col_all_with_col P c c' g df :
  col_all P c df → (∀ r, P (g r)) → col_all P c (with_col c' g df).
Proof.
  intros Hc Hg r Hr. apply elem_of_rows_with_col in Hr as (r0 & -> & Hr0).
  destruct (decide (c' = c)) as [-> | Hne].
  - rewrite row_get_insert. apply Hg.
  - rewrite row_get_insert_ne by done. by apply Hc.
Qed.

Lemma col_all_with_col_same P c g df :
  (∀ r, P (g r)) → col_all P c (with_col c g df).
Proof.
  intros Hg r Hr. apply elem_of_rows_with_col in Hr as (r0 & -> & Hr0).
  rewrite row_get_insert. apply Hg.
Qed.


Lemma traverse_map {A B C : Type} (f : B → result C) (h : A → B) (l : list A) :
  traverse f (map h l) = traverse (fun a => f (h a)) l.
Proof. induction l as [| a l IH]; simpl; [done | by rewrite IH]. Qed.

Lemma zip_map_map {A B C : Type} (f : A → B) (g : A → C) (l : list A) :
  zip (map f l) (map g l) = map (fun a => (f a, g a)) l.
Proof. induction l as [| a l IH]; simpl; [done | by rewrite IH]. Qed.

Lemma as_float_key c r : is_float (row_get c r) → as_float (row_get c r) = Ok (key_float c r).
Proof. intros [x Hx]. unfold key_float. by rewrite Hx. Qed.

Lemma find_none_all {A : Type} (p : A → bool) (l : list A) :
  (∀ a, a ∈ l → p a = false) → List.find p l = None.
Proof.
  induction l as [| a l IH]; intros H; simpl; [done |].
  rewrite (H a) by (apply elem_of_cons; by left).
  apply IH. intros b Hb. apply H. apply elem_of_cons. by right.
Qed.

Lemma mean_columns_ok group df :
  (∀ c, c ∈ group → has_col c df = true ∧ float_col c df) →
  mean_columns group df
  = Ok (map (fun r => CFloat (nanmean (map (fun c => key_float c r) group))) (rows df)).
Proof.
  intros H. unfold mean_columns.
  rewrite find_none_all; [| by intros c [-> _]%H].
  apply traverse_ok. intros r Hr. unfold row_mean.
  rewrite (traverse_ok _ (fun c => key_float c r)); [done |].
  intros c Hc. apply as_float_key. by apply H.
Qed.

Lemma add_mean_ok name group df :
  (∀ c, c ∈ group → has_col c df = true ∧ float_col c df) →
  add_mean name group df = Ok (with_col name (mean_cell group) df).
Proof.
  intros H. unfold add_mean. destruct group as [| c group].
  - by rewrite set_scalar_with_col.
  - rewrite (mean_columns_ok _ _ H). simpl. by rewrite set_column_map.
Qed.

Lemma add_difference_ok name a b df :
  has_col a df = true → has_col b df = true → float_col a df → float_col b df →
  add_difference name a b df = Ok (with_col name (diff_cell a b) df).
Proof.
  intros Ha Hb Fa Fb. unfold add_difference, sub_columns.
  rewrite (column_ok _ _ Ha), (column_ok _ _ Hb). simpl.
  rewrite zip_map_map, traverse_map.
  rewrite (traverse_ok _ (diff_cell a b)).
  - simpl. by rewrite set_column_map.
  - intros r Hr. simpl. unfold cell_sub.
    rewrite (as_float_key a r), (as_float_key b r) by auto. done.
Qed.

Lemma clean_columns_ok cols df :
  (∀ c, c ∈ cols → has_col c df = true) →
  clean_columns cols df = Ok (clean_frame cols df).
Proof.
  revert df. induction cols as [| c cols IH]; intros df H; simpl; [done |].
  rewrite apply_column_ok by (apply H, elem_of_cons; by left). simpl.
  apply IH. intros c' Hc'. apply has_col_with_col, H, elem_of_cons. by right.
Qed.

Lemma bind_ok {A B : Type} (a : A) (k : A → result B) : (Ok a ≫= k) = k a.
Proof. reflexivity. Qed.

Section StageFacts.
Variable parse_dates : list cell → result (cell → cell).

Lemma convert_date_inv c df df' :
  convert_date parse_dates c df = Ok df' →
  df' = with_date (conversion parse_dates) c df.
Proof.
  unfold convert_date, with_date. destruct (has_col c df) eqn:H; [| by intros [= <-]].
  rewrite (column_ok _ _ H), bind_ok. unfold to_datetime, date_cell, conversion.
  destruct (parse_dates _) as [f | e]; [| discriminate].
  rewrite !bind_ok. intros [= <-]. rewrite map_map.
  exact (set_column_map c (fun r => f (row_get c r)) df).
Qed.



End StageFacts.

Lemma dt_month_name_ok col :
  Forall is_time col → dt_month_name col = Ok (map month_cell col).
Proof.
  intros H. apply traverse_ok. intros v Hv.
  eapply Forall_forall in H as [t ->]; [| done]. by destruct t.
Qed.

Lemma dt_year_ok col :
  Forall is_time col → dt_year col = Ok (map (year_cell (existsb isna col)) col).
Proof.
  intros H. apply traverse_ok. intros v Hv.
  eapply Forall_forall in H as [t ->]; [| done]. by destruct t.
Qed.

Lemma time_col_Forall c df : time_col c df → Forall is_time (map (row_get c) (rows df)).
Proof.
  intros H. apply Forall_forall. intros v Hv.
  apply list_elem_of_In, in_map_iff in Hv as (r & <- & Hr%list_elem_of_In). by apply H.
Qed.

Lemma map_row_get_with_col c c' g df :
  c' ≠ c →
  map (row_get c) (rows (with_col c' g df)) = map (row_get c) (rows df).
Proof.
  intros Hne. unfold with_col. simpl. rewrite map_map. apply map_ext.
  intros r. by apply row_get_insert_ne.
Qed.

Lemma add_month_year_ok df :
  (has_col "Date of Injury" df = true → time_col "Date of Injury" df) →
  add_month_year df = Ok (month_year df).
Proof.
  intros Ht. unfold add_month_year, month_year.
  destruct (has_col "Date of Injury" df) eqn:H.
  - specialize (Ht eq_refl). apply time_col_Forall in Ht.
    rewrite (column_ok _ _ H), bind_ok.
    rewrite (dt_month_name_ok _ Ht), bind_ok. rewrite map_map, set_column_map.
    rewrite column_ok by by apply has_col_with_col. rewrite bind_ok.
    rewrite map_row_get_with_col by done.
    rewrite (dt_year_ok _ Ht), bind_ok.
    rewrite <- (map_row_get_with_col "Date of Injury" "Injury_Month"
                 (fun r => month_cell (row_get "Date of Injury" r)) df) at 2 by done.
    rewrite map_map, set_column_map. do 2 f_equal.
  - by rewrite !set_scalar_with_col.
Qed.


(** *** Renaming *)

Lemma row_get_rename_row c old new (r : row) :
  c ≠ old → c ≠ new → row_get c (rename_row old new r) = row_get c r.
Proof.
  intros Ho Hn. unfold rename_row, row_get. destruct (r !! old); [| done].
  by rewrite lookup_insert_ne, lookup_delete_ne.
Qed.




(** *** The whole of [load_data] *)

Lemma mean_cell_float group r : is_float (mean_cell group r).
Proof. unfold mean_cell. destruct group; by eexists. Qed.

Lemma diff_cell_float a b r : is_float (diff_cell a b r).
Proof. by eexists. Qed.

Lemma ready_with_col cols c g df :
  ready cols df → (∀ r, is_float (g r)) → ready (c :: cols) (with_col c g df).
Proof.
  intros Hr Hg c' [-> | Hc']%elem_of_cons.
  - split; [apply has_col_with_col_same | by apply col_all_with_col_same].
  - destruct (Hr c' Hc') as [H1 H2].
    split; [by apply has_col_with_col | by apply col_all_with_col].
Qed.


Lemma ready_clean_frame done cols df :
  ready done df → (∀ c, c ∈ cols → has_col c df = true) →
  ready (done ++ cols) (clean_frame cols df).
Proof.
  revert done df. induction cols as [| c cols IH]; intros done df Hd Hc; simpl.
  - by rewrite app_nil_r.
  - replace (done ++ c :: cols) with ((done ++ [c]) ++ cols) by by rewrite <- app_assoc.
    apply IH.
    + intros c' [Hc' | ->%list_elem_of_singleton]%elem_of_app.
      * destruct (Hd c' Hc') as [H1 H2]. split; [by apply has_col_with_col |].
        apply col_all_with_col; [done |]. intros r. apply clean_numeric_is_float.
      * split; [apply has_col_with_col_same |].
        apply col_all_with_col_same. intros r. apply clean_numeric_is_float.
    + intros c' Hc'. apply has_col_with_col, Hc, elem_of_cons. by right.
Qed.



Lemma filter_sub {A : Type} (p : A → bool) (l : list A) (a : A) :
  a ∈ List.filter p l → a ∈ l.
Proof. rewrite !list_elem_of_In, filter_In. tauto. Qed.

Lemma dt_month_name_time col months :
  dt_month_name col = Ok months → Forall is_time col.
Proof.
  unfold dt_month_name. revert months.
  induction col as [| v col IH]; intros months H; [constructor |].
  cbn [traverse] in H.
  destruct v as [x | n | b | s | t]; try discriminate H.
  constructor; [by eexists |].
  destruct (traverse _ col) as [ms | e] eqn:E.
  - by eapply IH.
  - by destruct t as [t |].
Qed.

Lemma add_month_year_inv df df' :
  add_month_year df = Ok df' → df' = month_year df.
Proof.
  intros H.
  assert (has_col "Date of Injury" df = true → time_col "Date of Injury" df) as Ht.
  { intros Hc. unfold add_month_year in H. rewrite Hc, (column_ok _ _ Hc), bind_ok in H.
    destruct (dt_month_name _) as [ms | e] eqn:E; [| discriminate H].
    apply dt_month_name_time in E. intros r Hr.
    rewrite Forall_forall in E. apply E, list_elem_of_fmap. by exists r. }
  rewrite (add_month_year_ok _ Ht) in H. by injection H as <-.
Qed.

(** The cleaning of the columns and the derived metrics raise nothing. *)
Lemma metrics_ok df :
  (let ratings := rating_cols df in
   let gds := gd_cols df in
   df ← clean_columns (ratings ++ gds) df;
   df ← add_mean "avg_rating_before" (List.filter (lower_has "before") ratings) df;
   df ← add_mean "avg_rating_after" (List.filter (lower_has "after") ratings) df;
   df ← add_difference "rating_change" "avg_rating_after" "avg_rating_before" df;
   df ← add_mean "team_gd_before" (List.filter (lower_has "before") gds) df;
   df ← add_mean "team_gd_missed" (List.filter (lower_has "missed") gds) df;
   add_difference "performance_drop_index" "team_gd_before" "team_gd_missed" df)
  = Ok (finish df).
Proof.
  unfold finish.
  set (ratings := rating_cols df). set (gds := gd_cols df).
  assert (∀ c, c ∈ ratings ++ gds → has_col c df = true) as Hcols.
  { intros c [Hc | Hc]%elem_of_app; apply has_col_iff; by eapply filter_sub. }
  assert (ready (ratings ++ gds) (clean_frame (ratings ++ gds) df)) as Hr.
  { apply (ready_clean_frame []); [by intros c Hc%elem_of_nil | done]. }
  rewrite clean_columns_ok, bind_ok by done.
  unfold derive.
  rewrite add_mean_ok, bind_ok
    by (intros c Hc%filter_sub; apply Hr, elem_of_app; by left).
  eapply ready_with_col in Hr; [| apply mean_cell_float].
  rewrite add_mean_ok, bind_ok
    by (intros c Hc%filter_sub; apply Hr, elem_of_cons; right; apply elem_of_app; by left).
  eapply ready_with_col in Hr; [| apply mean_cell_float].
  rewrite add_difference_ok, bind_ok by (apply Hr; set_solver).
  eapply ready_with_col in Hr; [| apply diff_cell_float].
  rewrite add_mean_ok, bind_ok
    by (intros c Hc%filter_sub; apply Hr; set_solver).
  eapply ready_with_col in Hr; [| apply mean_cell_float].
  rewrite add_mean_ok, bind_ok
    by (intros c Hc%filter_sub; apply Hr; set_solver).
  eapply ready_with_col in Hr; [| apply mean_cell_float].
  rewrite add_difference_ok by (apply Hr; set_solver).
  done.
Qed.

(** [load_data] from the date step on: it raises what a date conversion or
    the month and year raise, and nothing else. *)
Lemma load_data_steps parse_dates raw :
  load_data parse_dates raw
  = (d1 ← convert_date parse_dates "Date of Injury" raw;
     d2 ← convert_date parse_dates "Date of return" d1;
     d3 ← add_month_year (rename (rename_map d2) d2);
     Ok (finish d3)).
Proof.
  unfold load_data.
  destruct (convert_date parse_dates "Date of Injury" raw) as [d1 | e]; [| done].
  rewrite !bind_ok.
  destruct (convert_date parse_dates "Date of return" d1) as [d2 | e]; [| done].
  rewrite !bind_ok.
  destruct (add_month_year _) as [d3 | e]; [| done].
  rewrite !bind_ok. apply metrics_ok.
Qed.

Lemma load_data_enrich parse_dates raw df :
  load_data parse_dates raw = Ok df → df = enrich (conversion parse_dates) raw.
Proof.
  rewrite load_data_steps. unfold enrich, prepared.
  destruct (convert_date parse_dates "Date of Injury" raw) as [d1 | e] eqn:E1;
    [| discriminate].
  apply convert_date_inv in E1 as ->. rewrite bind_ok.
  destruct (convert_date parse_dates "Date of return" _) as [d2 | e] eqn:E2;
    [| discriminate].
  apply convert_date_inv in E2 as ->. rewrite bind_ok.
  destruct (add_month_year _) as [d3 | e] eqn:E3; [| discriminate].
  apply add_month_year_inv in E3 as ->. rewrite bind_ok. by intros [= <-].
Qed.


(** *** Records through the stages *)

Lemma stage_refl L df : stage L df df.
Proof. exists id. split; [by rewrite map_id | done]. Qed.

Lemma stage_trans L df1 df2 df3 :
  stage L df1 df2 → stage L df2 df3 → stage L df1 df3.
Proof.
  intros (f & Hf & Af) (g & Hg & Ag). exists (fun r => g (f r)). split.
  - by rewrite Hg, Hf, map_map.
  - intros r c Hc. by rewrite Ag, Af.
Qed.

Lemma stage_with_col L c g df : c ∈ L → stage L df (with_col c g df).
Proof.
  intros Hc. exists (fun r => <[c := g r]> r). split; [done |].
  intros r c' Hc'. apply row_get_insert_ne. by intros ->.
Qed.

Lemma stage_rename_column L old new df :
  old ∈ L → new ∈ L → stage L df (rename_column old new df).
Proof.
  intros Ho Hn. exists (rename_row old new). split; [done |].
  intros r c Hc. apply row_get_rename_row; by intros ->.
Qed.

Lemma stage_rename L m df :
  (∀ p, p ∈ m → p.1 ∈ L ∧ p.2 ∈ L) → stage L df (rename m df).
Proof.
  unfold rename. revert df. induction m as [| [old new] m IH]; intros df H; simpl.
  - apply stage_refl.
  - destruct (H (old, new)) as [Ho Hn]; [apply elem_of_cons; by left |].
    simpl in Ho, Hn.
    eapply stage_trans; [exact (stage_rename_column L old new df Ho Hn) |].
    apply IH. intros p Hp. apply H, elem_of_cons. by right.
Qed.

Lemma stage_mono L L' df df' :
  (∀ c, c ∈ L → c ∈ L') → stage L df df' → stage L' df df'.
Proof.
  intros HL (f & Hf & Af). exists f. split; [done |].
  intros r c Hc. apply Af. intros Hin. by apply Hc, HL.
Qed.

Lemma stage_with_date parse_date L c df : c ∈ L → stage L df (with_date parse_date c df).
Proof.
  intros Hc. unfold with_date. destruct (has_col c df);
    [by apply stage_with_col | apply stage_refl].
Qed.

Lemma stage_month_year L df :
  "Injury_Month"%string ∈ L → "Injury_Year"%string ∈ L → stage L df (month_year df).
Proof.
  intros Hm Hy. unfold month_year. destruct (has_col "Date of Injury" df);
    (eapply stage_trans; [| by apply stage_with_col]; by apply stage_with_col).
Qed.

Lemma stage_derive L ratings gds df :
  (∀ c, c ∈ ["avg_rating_before"; "avg_rating_after"; "rating_change";
             "team_gd_before"; "team_gd_missed"; "performance_drop_index"]%string →
        c ∈ L) →
  stage L df (derive ratings gds df).
Proof.
  intros HL. unfold derive.
  repeat (eapply stage_trans; [| apply stage_with_col, HL; set_solver]).
  apply stage_refl.
Qed.

(** Cleaning: every cell is cleaned as many times as its label is listed. *)
Lemma clean_frame_rows cols df :
  ∃ f : row → row,
    rows (clean_frame cols df) = map f (rows df)
    ∧ ∀ r c, row_get c (f r)
             = Nat.iter (count_occ string_dec cols c) clean_numeric (row_get c r).
Proof.
  revert df. induction cols as [| c' cols IH]; intros df; simpl.
  - exists id. split; [by rewrite map_id | done].
  - destruct (IH (with_col c' (fun r => clean_numeric (row_get c' r)) df))
      as (f & Hf & Af).
    exists (fun r => f (<[c' := clean_numeric (row_get c' r)]> r)). split.
    + rewrite Hf. unfold with_col. simpl. by rewrite map_map.
    + intros r c. rewrite Af. destruct (string_dec c' c) as [-> | Hne].
      * rewrite row_get_insert. by rewrite Nat.iter_succ_r.
      * by rewrite row_get_insert_ne.
Qed.

(** *** Labels *)

Lemma numeric_label_free c :
  is_numeric_label c = true → c ∉ prepared_labels ++ derived_labels.
Proof.
  intros Hc Hin. unfold prepared_labels, derived_labels in Hin. simpl in Hin.
  repeat (apply elem_of_cons in Hin as [-> | Hin]; [by vm_compute in Hc |]).
  by apply elem_of_nil in Hin.
Qed.

Lemma numeric_cols_label df c :
  c ∈ rating_cols df ++ gd_cols df → is_numeric_label c = true.
Proof.
  unfold rating_cols, gd_cols, is_numeric_label.
  intros [H | H]%elem_of_app; apply list_elem_of_In, filter_In in H as [_ H];
    rewrite H; [done | apply orb_true_r].
Qed.

Lemma columns_with_col_filter (p : string → bool) c g df :
  p c = false →
  List.filter p (columns (with_col c g df)) = List.filter p (columns df).
Proof.
  intros Hp. unfold with_col. simpl. destruct (has_col c df); [done |].
  rewrite List.filter_app. simpl. rewrite Hp. apply app_nil_r.
Qed.

Lemma columns_clean_frame cols df :
  (∀ c, c ∈ cols → has_col c df = true) → columns (clean_frame cols df) = columns df.
Proof.
  revert df. induction cols as [| c cols IH]; intros df H; simpl; [done |].
  rewrite IH.
  - unfold with_col. simpl. by rewrite H by (apply elem_of_cons; by left).
  - intros c' Hc'. apply has_col_with_col, H, elem_of_cons. by right.
Qed.

Lemma columns_derive_filter (p : string → bool) ratings gds df :
  (∀ c, c ∈ derived_labels → p c = false) →
  List.filter p (columns (derive ratings gds df)) = List.filter p (columns df).
Proof.
  intros Hp. unfold derive.
  rewrite !columns_with_col_filter; [done | ..]; apply Hp; unfold derived_labels; set_solver.
Qed.

Lemma numeric_cols_enrich parse_date raw :
  rating_cols (enrich parse_date raw) = rating_cols (prepared parse_date raw)
  ∧ gd_cols (enrich parse_date raw) = gd_cols (prepared parse_date raw).
Proof.
  unfold enrich, finish, rating_cols, gd_cols.
  set (df := prepared parse_date raw).
  rewrite !columns_derive_filter.
  - rewrite columns_clean_frame; [done |].
    intros c [Hc | Hc]%elem_of_app; apply has_col_iff; by eapply filter_sub.
  - intros c Hc. unfold derived_labels in Hc.
    repeat (apply elem_of_cons in Hc as [-> | Hc]; [done |]). by apply elem_of_nil in Hc.
  - intros c Hc. unfold derived_labels in Hc.
    repeat (apply elem_of_cons in Hc as [-> | Hc]; [done |]). by apply elem_of_nil in Hc.
Qed.

(** ** The derived metrics *)

Lemma key_float_insert_ne c c' v (r : row) :
  c' ≠ c → key_float c (<[c' := v]> r) = key_float c r.
Proof. intros H. unfold key_float. by rewrite row_get_insert_ne. Qed.

Lemma mean_cell_insert_ne group c' v (r : row) :
  c' ∉ group → mean_cell group (<[c' := v]> r) = mean_cell group r.
Proof.
  intros H. unfold mean_cell. destruct group as [| c group]; [done |].
  do 2 f_equal. apply map_ext_in. intros a Ha%list_elem_of_In.
  apply key_float_insert_ne. by intros ->.
Qed.

Lemma diff_cell_insert_ne a b c' v (r : row) :
  c' ≠ a → c' ≠ b → diff_cell a b (<[c' := v]> r) = diff_cell a b r.
Proof. intros Ha Hb. unfold diff_cell. by rewrite !key_float_insert_ne. Qed.

Lemma key_float_cell c (r : row) x : row_get c r = CFloat x → key_float c r = x.
Proof. intros H. unfold key_float. by rewrite H. Qed.

Lemma lift_mean c group c' v (r : row) :
  c' ≠ c → c' ∉ group →
  row_get c r = mean_cell group r →
  row_get c (<[c' := v]> r) = mean_cell group (<[c' := v]> r).
Proof. intros. by rewrite row_get_insert_ne, mean_cell_insert_ne. Qed.

Lemma lift_diff c a b c' v (r : row) :
  c' ≠ c → c' ≠ a → c' ≠ b →
  row_get c r = diff_cell a b r →
  row_get c (<[c' := v]> r) = diff_cell a b (<[c' := v]> r).
Proof. intros. by rewrite row_get_insert_ne, diff_cell_insert_ne. Qed.

Lemma new_mean c group (r : row) :
  c ∉ group →
  row_get c (<[c := mean_cell group r]> r)
  = mean_cell group (<[c := mean_cell group r]> r).
Proof. intros. by rewrite row_get_insert, mean_cell_insert_ne. Qed.

Lemma new_diff c a b (r : row) :
  c ≠ a → c ≠ b →
  row_get c (<[c := diff_cell a b r]> r) = diff_cell a b (<[c := diff_cell a b r]> r).
Proof. intros. by rewrite row_get_insert, diff_cell_insert_ne. Qed.

Lemma derive_rows ratings gds df r :
  (∀ c, c ∈ ratings ++ gds → c ∉ derived_labels) →
  r ∈ rows (derive ratings gds df) → derived_ok ratings gds r.
Proof.
  intros Hfree Hr. unfold derive in Hr.
  repeat (apply elem_of_rows_with_col in Hr as (? & -> & Hr)).
  assert (∀ (p : string → bool) c, c ∈ derived_labels →
            (c ∉ List.filter p ratings) ∧ (c ∉ List.filter p gds)) as Hg.
  { intros p c Hc. split; intros Hin%filter_sub; eapply Hfree; try exact Hc;
      apply elem_of_app; auto. }
  assert (∀ (p : string → bool) c, c ∈ derived_labels → c ∉ List.filter p ratings) as Hg1
    by (intros p c Hc; by apply Hg).
  assert (∀ (p : string → bool) c, c ∈ derived_labels → c ∉ List.filter p gds) as Hg2
    by (intros p c Hc; by apply Hg).
  assert (∀ c, c ∈ derived_labels ↔
               c ∈ ["avg_rating_before"; "avg_rating_after"; "rating_change";
                    "team_gd_before"; "team_gd_missed"; "performance_drop_index"]%string)
    as Hd by done.
  unfold derived_ok.
  repeat split;
    repeat first
      [ apply lift_mean; [done | first [apply Hg1 | apply Hg2]; apply Hd; set_solver |]
      | apply lift_diff; [done | done | done |] ];
    first [ apply new_mean; first [apply Hg1 | apply Hg2]; apply Hd; set_solver
          | by apply new_diff ].
Qed.


Lemma numeric_cols_free df c :
  c ∈ rating_cols df ++ gd_cols df → c ∉ derived_labels.
Proof.
  intros Hc%numeric_cols_label%numeric_label_free Hd. apply Hc, elem_of_app. by right.
Qed.


Lemma enrich_rows_derived parse_date raw r :
  r ∈ rows (enrich parse_date raw) →
  derived_ok (rating_cols (enrich parse_date raw)) (gd_cols (enrich parse_date raw)) r.
Proof.
  intros Hr. destruct (numeric_cols_enrich parse_date raw) as [-> ->].
  eapply derive_rows; [apply numeric_cols_free | exact Hr].
Qed.

Lemma fsub_nan x y : is_nan x = true ∨ is_nan y = true → is_nan (fsub x y) = true.
Proof. intros [H | H]; destruct x, y; try discriminate H; reflexivity. Qed.



(** C6: in a table that [load_data] returns, for every record
    [rating_change] is [avg_rating_after] minus [avg_rating_before] and
    [performance_drop_index] is [team_gd_before] minus [team_gd_missed]; a
    difference is missing as soon as one operand is; and 2.0 minus -1.0 is
    3.0. *)
Theorem derived_differences parse_dates (raw df : DataFrame) :
  load_data parse_dates raw = Ok df →
    Forall (fun r =>
        ∃ after before gd_before gd_missed : float64,
          row_get "avg_rating_after" r = CFloat after
          ∧ row_get "avg_rating_before" r = CFloat before
          ∧ row_get "rating_change" r = CFloat (fsub after before)
          ∧ row_get "team_gd_before" r = CFloat gd_before
          ∧ row_get "team_gd_missed" r = CFloat gd_missed
          ∧ row_get "performance_drop_index" r = CFloat (fsub gd_before gd_missed))
        (rows df)
    ∧ (∀ x y, is_nan x = true ∨ is_nan y = true → is_nan (fsub x y) = true)
    ∧ fsub (of_Z 2) (of_Z (-1)) = of_Z 3.
Proof.
  intros Hload. apply load_data_enrich in Hload as ->.
  set (parse_date := conversion parse_dates).
  split; [| split; [apply fsub_nan | by vm_compute]].
  apply Forall_forall. intros r Hr.
  destruct (enrich_rows_derived _ _ _ Hr) as (Hb & Ha & Hc & Hgb & Hgm & Hp).
  destruct (mean_cell_float (List.filter (lower_has "after")
              (rating_cols (enrich parse_date raw))) r) as [a Ea].
  destruct (mean_cell_float (List.filter (lower_has "before")
              (rating_cols (enrich parse_date raw))) r) as [b Eb].
  destruct (mean_cell_float (List.filter (lower_has "before")
              (gd_cols (enrich parse_date raw))) r) as [g Eg].
  destruct (mean_cell_float (List.filter (lower_has "missed")
              (gd_cols (enrich parse_date raw))) r) as [m Em].
  rewrite Ea in Ha. rewrite Eb in Hb. rewrite Eg in Hgb. rewrite Em in Hgm.
  exists a, b, g, m. repeat split; try done.
  - rewrite Hc. unfold diff_cell. by rewrite (key_float_cell _ _ _ Ha), (key_float_cell _ _ _ Hb).
  - rewrite Hp. unfold diff_cell. by rewrite (key_float_cell _ _ _ Hgb), (key_float_cell _ _ _ Hgm).
Qed.

(** ** The enriched table, record by record *)

Lemma prepared_stage parse_date raw :
  stage prepared_labels raw (prepared parse_date raw).
Proof.
  unfold prepared.
  assert (∀ c, c ∈ prepared_labels ↔
            c ∈ ["Date of Injury"; "Date of return"; "Name"; "Player_Name";
                 "Team Name"; "Team"; "FIFA rating"; "FIFA_Rating";
                 "Injury_Month"; "Injury_Year"]%string) as HL by done.
  eapply stage_trans; [| apply stage_month_year; apply HL; set_solver].
  eapply stage_trans; [| apply stage_rename].
  - eapply stage_trans; apply stage_with_date; apply HL; set_solver.
  - intros p Hp. unfold rename_map in Hp.
    assert (p ∈ [("Name", "Player_Name"); ("Team Name", "Team");
                 ("FIFA rating", "FIFA_Rating")]%string) as Hp'.
    { destruct (has_col "Name" _), (has_col "Team Name" _), (has_col "FIFA rating" _);
        simpl in Hp; set_solver. }
    repeat (apply elem_of_cons in Hp' as [-> | Hp']; [split; apply HL; set_solver |]).
    by apply elem_of_nil in Hp'.
Qed.

Lemma enrich_numeric_cells parse_date raw :
  let df := enrich parse_date raw in
  ∃ f : row → row,
    rows df = map f (rows raw)
    ∧ ∀ r c, is_numeric_label c = true →
        row_get c (f r)
        = Nat.iter (count_occ string_dec (rating_cols df ++ gd_cols df) c)
                   clean_numeric (row_get c r).
Proof.
  intros df. subst df.
  destruct (numeric_cols_enrich parse_date raw) as [-> ->].
  unfold enrich, finish. set (p := prepared parse_date raw).
  set (cols := rating_cols p ++ gd_cols p).
  destruct (prepared_stage parse_date raw) as (f1 & H1 & A1). fold p in H1.
  destruct (clean_frame_rows cols p) as (f2 & H2 & A2).
  destruct (stage_derive derived_labels (rating_cols p) (gd_cols p) (clean_frame cols p))
    as (f3 & H3 & A3); [done |].
  exists (fun r => f3 (f2 (f1 r))). split.
  - by rewrite H3, H2, H1, !map_map.
  - intros r c Hc. apply numeric_label_free in Hc.
    rewrite A3, A2, A1; [done | |]; intros Hin; apply Hc, elem_of_app; auto.
Qed.

Lemma has_col_derive c ratings gds df :
  c ∈ derived_labels ∨ has_col c df = true → has_col c (derive ratings gds df) = true.
Proof.
  intros H. unfold derive.
  destruct H as [H | H].
  - unfold derived_labels in H.
    repeat (apply elem_of_cons in H as [-> | H];
            [repeat first [apply has_col_with_col_same | apply has_col_with_col] |]).
    by apply elem_of_nil in H.
  - by repeat apply has_col_with_col.
Qed.

Lemma has_col_month_year c df :
  c ∈ ["Injury_Month"; "Injury_Year"]%string ∨ has_col c df = true →
  has_col c (month_year df) = true.
Proof.
  intros H. unfold month_year.
  destruct (has_col "Date of Injury" df); destruct H as [H | H];
    try (by repeat apply has_col_with_col);
    repeat (apply elem_of_cons in H as [-> | H];
            [repeat first [apply has_col_with_col_same | apply has_col_with_col] |]);
    by apply elem_of_nil in H.
Qed.

Lemma has_col_clean_frame c cols df :
  (∀ c', c' ∈ cols → has_col c' df = true) →
  has_col c df = true → has_col c (clean_frame cols df) = true.
Proof.
  intros Hc H. apply has_col_iff. rewrite columns_clean_frame by done. by apply has_col_iff.
Qed.

(** X1: a table that [load_data] returns has as many records as the table
    read, and it has the columns [Injury_Month] and [Injury_Year] and the six
    derived columns. *)
Theorem load_data_shape parse_dates (raw df : DataFrame) :
  load_data parse_dates raw = Ok df →
  length (rows df) = length (rows raw)
  ∧ Forall (fun c => has_col c df = true)
      (["Injury_Month"; "Injury_Year"]%string ++ derived_labels).
Proof.
  intros Hload. apply load_data_enrich in Hload as ->.
  set (parse_date := conversion parse_dates). split.
  - destruct (enrich_numeric_cells parse_date raw) as (f & Hf & _).
    by rewrite Hf, length_map.
  - apply Forall_forall. intros c Hc. unfold enrich, finish.
    apply has_col_derive. apply elem_of_app in Hc as [Hc | Hc]; [right | by left].
    apply has_col_clean_frame.
    + intros c' [H | H]%elem_of_app; apply has_col_iff; by eapply filter_sub.
    + unfold prepared. apply has_col_month_year. by left.
Qed.

Lemma Forall2_map_r_diag {A B : Type} (R : A → B → Prop) (f : A → B) (l : list A) :
  (∀ a, R a (f a)) → Forall2 R l (map f l).
Proof. intros H. induction l; constructor; auto. Qed.

(** X4: record by record, every cell of a rating or goal-difference column
    of a table that [load_data] returns is [clean_numeric] applied to the cell
    of the table read, once for each time the column is listed (a column
    whose name has both markers is listed twice): it is a float or the
    missing value, and it is missing whenever [clean_numeric] makes the cell
    read missing. *)
Theorem cleaned_cells parse_dates (raw df : DataFrame) :
  load_data parse_dates raw = Ok df →
    Forall2 (fun r0 r =>
        ∀ c, c ∈ rating_cols df ++ gd_cols df →
          (∃ k, (0 < k)%nat ∧ row_get c r = Nat.iter k clean_numeric (row_get c r0))
          ∧ (∃ x, row_get c r = CFloat x)
          ∧ (clean_numeric (row_get c r0) = NaN → row_get c r = NaN))
        (rows raw) (rows df).
Proof.
  intros Hload. apply load_data_enrich in Hload as ->.
  set (parse_date := conversion parse_dates).
  destruct (enrich_numeric_cells parse_date raw) as (f & Hf & Af).
  rewrite Hf. apply Forall2_map_r_diag. intros r0 c Hc.
  pose proof (numeric_cols_label _ _ Hc) as Hn.
  assert (0 < count_occ string_dec
                (rating_cols (enrich parse_date raw) ++ gd_cols (enrich parse_date raw)) c)%nat
    as Hk by (apply count_occ_In; by apply list_elem_of_In).
  rewrite (Af r0 c Hn).
  destruct (count_occ _ _ c) as [| k]; [lia |].
  split; [exists (S k); split; [lia | done] |]. split.
  - simpl. apply clean_numeric_is_float.
  - intros Hnan. rewrite Nat.iter_succ_r, Hnan. clear.
    induction k as [| k IH]; [done |]. simpl. by rewrite IH.
Qed.

(** ** When [load_data] returns, and what it raises *)

Lemma traverse_raise {A B : Type} (P : exn → Prop) (f : A → result B) l e :
  (∀ a e, f a = Raise e → P e) → traverse f l = Raise e → P e.
Proof.
  intros Hf. induction l as [| a l IH]; [discriminate |].
  cbn [traverse]. destruct (f a) as [b | e'] eqn:E.
  - rewrite bind_ok. destruct (traverse f l) as [bs | e'']; [discriminate |].
    intros [= <-]. by apply IH.
  - intros [= <-]. by eapply Hf.
Qed.

Lemma add_month_year_raise df e : add_month_year df = Raise e → e = AttributeError.
Proof.
  unfold add_month_year. destruct (has_col "Date of Injury" df) eqn:H; [| discriminate].
  rewrite (column_ok _ _ H), bind_ok.
  destruct (dt_month_name _) as [ms | e'] eqn:E.
  - rewrite bind_ok, column_ok, bind_ok.
    + destruct (dt_year _) as [ys | e''] eqn:E'; [discriminate |].
      intros [= <-]. unfold dt_year in E'.
      eapply (traverse_raise (fun e => e = AttributeError)); [| exact E'].
      intros a e0. destruct a as [| | | | [t |]]; by intros [= <-].
    + apply has_col_iff. unfold set_column. cbn [columns].
      destruct (has_col "Injury_Month" df);
        [by apply has_col_iff | apply elem_of_app; left; by apply has_col_iff].
  - intros [= <-]. unfold dt_month_name in E.
    eapply (traverse_raise (fun e => e = AttributeError)); [| exact E].
    intros a e0. destruct a as [| | | | [t |]]; by intros [= <-].
Qed.

Lemma convert_date_raise parse_dates c df e :
  convert_date parse_dates c df = Raise e → ∃ col, parse_dates col = Raise e.
Proof.
  unfold convert_date. destruct (has_col c df) eqn:H; [| discriminate].
  rewrite (column_ok _ _ H), bind_ok. unfold to_datetime.
  destruct (parse_dates _) as [f | e'] eqn:E; [discriminate |].
  intros [= <-]. by eexists.
Qed.




(** X8: what [load_data] raises is raised by a date conversion, or it is the
    [AttributeError] of the [dt] accessor on a converted column that is not a
    datetime column; the cleaning and the derived metrics raise nothing. *)
Theorem load_data_raises parse_dates (raw : DataFrame) (e : exn) :
  load_data parse_dates raw = Raise e →
  (∃ col, parse_dates col = Raise e) ∨ e = AttributeError.
Proof.
  rewrite load_data_steps.
  destruct (convert_date parse_dates "Date of Injury" raw) as [d1 | e1] eqn:E1.
  - rewrite bind_ok.
    destruct (convert_date parse_dates "Date of return" d1) as [d2 | e2] eqn:E2.
    + rewrite bind_ok. destruct (add_month_year _) as [d3 | e3] eqn:E3; [discriminate |].
      intros [= <-]. right. by eapply add_month_year_raise.
    + intros [= <-]. left. by eapply convert_date_raise.
  - intros [= <-]. left. by eapply convert_date_raise.
Qed.

Lemma load_data_raises_witness :
  (∃ col, refused_dates col = Raise ValueError) ∨ ValueError = AttributeError.
Proof.
  apply (load_data_raises refused_dates sample_table ValueError).
  vm_compute. reflexivity.
Defined.

Lemma load_data_shape_witness :
  length (rows sample_enriched) = length (rows sample_table)
  ∧ Forall (fun c => has_col c sample_enriched = true)
      (["Injury_Month"; "Injury_Year"]%string ++ derived_labels).
Proof.
  apply (load_data_shape sample_dates sample_table). vm_compute. reflexivity.
Defined.


Lemma derived_differences_witness :
    Forall (fun r =>
        ∃ after before gd_before gd_missed : float64,
          row_get "avg_rating_after" r = CFloat after
          ∧ row_get "avg_rating_before" r = CFloat before
          ∧ row_get "rating_change" r = CFloat (fsub after before)
          ∧ row_get "team_gd_before" r = CFloat gd_before
          ∧ row_get "team_gd_missed" r = CFloat gd_missed
          ∧ row_get "performance_drop_index" r = CFloat (fsub gd_before gd_missed))
        (rows sample_enriched)
    ∧ (∀ x y, is_nan x = true ∨ is_nan y = true → is_nan (fsub x y) = true)
    ∧ fsub (of_Z 2) (of_Z (-1)) = of_Z 3.
Proof.
  apply (derived_differences sample_dates sample_table). vm_compute. reflexivity.
Defined.

Lemma cleaned_cells_witness :
    Forall2 (fun r0 r =>
        ∀ c, c ∈ rating_cols sample_enriched ++ gd_cols sample_enriched →
          (∃ k, (0 < k)%nat ∧ row_get c r = Nat.iter k clean_numeric (row_get c r0))
          ∧ (∃ x, row_get c r = CFloat x)
          ∧ (clean_numeric (row_get c r0) = NaN → row_get c r = NaN))
        (rows sample_table) (rows sample_enriched).
Proof.
  apply (cleaned_cells sample_dates sample_table). vm_compute. reflexivity.
Defined.

(** ** The filtered subset *)

Lemma select_true df : select (fun _ => true) df = df.
Proof.
  destruct df as [cs rs]. unfold select. simpl. f_equal.
  induction rs as [| r rs IH]; simpl; [done | by rewrite IH].
Qed.

Lemma select_select p q df :
  select q (select p df) = select (fun r => p r && q r) df.
Proof.
  unfold select. simpl. f_equal.
  induction (rows df) as [| r rs IH]; simpl; [done |].
  destruct (p r); simpl; [destruct (q r) |]; by rewrite IH.
Qed.

Lemma select_ext p q df : (∀ r, p r = q r) → select p df = select q df.
Proof.
  intros H. unfold select. f_equal. apply List.filter_ext. exact H.
Qed.

Lemma keep_isin_ok c vals df :
  has_col c df = true → keep_isin c vals df = Ok (select (fun r => isin vals (row_get c r)) df).
Proof. intros H. unfold keep_isin. by rewrite column_ok. Qed.

Lemma keep_if_ok c vals df :
  (truthy vals = true → has_col c df = true) →
  (if truthy vals then keep_isin c vals df else Ok df) = Ok (select (passes c vals) df).
Proof.
  intros H. unfold passes. destruct (truthy vals); simpl.
  - by rewrite keep_isin_ok by auto.
  - by rewrite select_true.
Qed.

Lemma filter_box_guard c chosen df vals :
  filter_box c chosen df = Ok vals → truthy vals = true → has_col c df = true.
Proof. unfold filter_box. destruct (has_col c df); [done |]. by intros [= <-]. Qed.

Lemma sidebar_inv df ch f :
  sidebar df ch = Ok f →
  filter_box "Season" (chosen_seasons ch) df = Ok (season_filter f)
  ∧ filter_box "Team" (chosen_teams ch) df = Ok (team_filter f)
  ∧ filter_box "Player_Name" (chosen_players ch) df = Ok (player_filter f).
Proof.
  unfold sidebar.
  destruct (filter_box "Season" _ df) as [s | e]; [| discriminate]. rewrite bind_ok.
  destruct (filter_box "Team" _ df) as [t | e]; [| discriminate]. rewrite bind_ok.
  destruct (filter_box "Player_Name" _ df) as [p | e]; [| discriminate]. rewrite bind_ok.
  by intros [= <-].
Qed.

Lemma apply_filters_select df f :
  (truthy (season_filter f) = true → has_col "Season" df = true) →
  (truthy (team_filter f) = true → has_col "Team" df = true) →
  (truthy (player_filter f) = true → has_col "Player_Name" df = true) →
  apply_filters df f
  = Ok (select (fun r =>
          passes "Season" (season_filter f) r
          && passes "Team" (team_filter f) r
          && passes "Player_Name" (player_filter f) r) df).
Proof.
  intros Hs Ht Hp. unfold apply_filters.
  assert ((if has_col "Season" df && truthy (season_filter f)
           then keep_isin "Season" (season_filter f) df else Ok df)
          = Ok (select (passes "Season" (season_filter f)) df)) as ->.
  { rewrite <- (keep_if_ok "Season" (season_filter f) df Hs).
    destruct (truthy (season_filter f)); [by rewrite Hs | by rewrite andb_false_r]. }
  rewrite bind_ok.
  rewrite (keep_if_ok "Team"); [| exact Ht]. rewrite bind_ok.
  rewrite (keep_if_ok "Player_Name"); [| exact Hp].
  rewrite !select_select. f_equal. apply select_ext. intros r. by rewrite andb_assoc.
Qed.

Lemma filtered_subset_inv df ch filtered :
  filtered_subset df ch = Ok filtered →
  ∃ f, sidebar df ch = Ok f
    ∧ filtered = select (fun r =>
          passes "Season" (season_filter f) r
          && passes "Team" (team_filter f) r
          && passes "Player_Name" (player_filter f) r) df.
Proof.
  unfold filtered_subset. destruct (sidebar df ch) as [f | e] eqn:E; [| discriminate].
  rewrite bind_ok. destruct (sidebar_inv _ _ _ E) as (Hs & Ht & Hp).
  rewrite apply_filters_select by (by eapply filter_box_guard).
  intros [= <-]. by exists f.
Qed.



(** ** The order of the floats, and sorting *)

Lemma SFleb_rank x y :
  is_nan x = false → is_nan y = false →
  SFleb x y = true ↔ rank_le (float_rank x) (float_rank y).
Proof.
  intros Hx Hy. unfold SFleb, rank_le.
  destruct x as [sx | sx | | sx mx ex], y as [sy | sy | | sy my ey];
    try discriminate Hx; try discriminate Hy;
    try destruct sx; try destruct sy; simpl;
    try (destruct (Z.compare_spec ex ey);
         try (change (Pos.compare_cont Eq mx my) with (Pos.compare mx my);
              destruct (Pos.compare_spec mx my); simpl));
    (split; intros Hle; first [reflexivity | discriminate Hle | lia]).
Qed.

Lemma float_geb_total x y :
  is_nan x = false → is_nan y = false → float_geb x y = false → float_geb y x = true.
Proof.
  intros Hx Hy H. unfold float_geb in *. apply SFleb_rank; [done | done |].
  destruct (SFleb y x) eqn:E; [discriminate |].
  assert (¬ rank_le (float_rank y) (float_rank x)) as Hn.
  { intros Hr. apply SFleb_rank in Hr; [congruence | done | done]. }
  unfold rank_le in *. lia.
Qed.

Lemma float_geb_trans x y z :
  is_nan x = false → is_nan y = false → is_nan z = false →
  float_geb x y = true → float_geb y z = true → float_geb x z = true.
Proof.
  unfold float_geb. intros Hx Hy Hz H1 H2.
  apply SFleb_rank in H1; [| done | done]. apply SFleb_rank in H2; [| done | done].
  apply SFleb_rank; [done | done |]. unfold rank_le in *. lia.
Qed.

Section SortFacts.
Context {A : Type} (leb : A → A → bool) (P : A → Prop).
Hypothesis leb_total : ∀ a b, P a → P b → leb a b = false → leb b a = true.
Hypothesis leb_trans :
  ∀ a b c, P a → P b → P c → leb a b = true → leb b c = true → leb a c = true.

Lemma insert_sorted_perm x l : insert_sorted leb x l ≡ₚ x :: l.
Proof.
  induction l as [| y l IH]; simpl; [done |].
  destruct (leb x y); [done |]. rewrite IH. apply Permutation_swap.
Qed.

Lemma sort_by_perm l : sort_by leb l ≡ₚ l.
Proof.
  induction l as [| x l IH]; simpl; [done |].
  by rewrite insert_sorted_perm, IH.
Qed.

Lemma insert_sorted_sorted x l :
  P x → Forall P l →
  StronglySorted (fun a b => leb a b = true) l →
  StronglySorted (fun a b => leb a b = true) (insert_sorted leb x l).
Proof.
  intros Hx. induction l as [| y l IH]; intros HP Hs; simpl.
  - repeat constructor.
  - apply Forall_cons in HP as [Hy HP].
    apply StronglySorted_inv in Hs as [Hs Hall].
    destruct (leb x y) eqn:E.
    + constructor; [by constructor |]. constructor; [done |].
      rewrite Forall_forall in *. intros z Hz.
      apply (leb_trans x y z); auto.
    + constructor; [by apply IH |].
      rewrite insert_sorted_perm. constructor; [by apply leb_total | done].
Qed.

Lemma sort_by_sorted l :
  Forall P l → StronglySorted (fun a b => leb a b = true) (sort_by leb l).
Proof.
  induction l as [| x l IH]; intros HP; simpl; [constructor |].
  apply Forall_cons in HP as [Hx HP].
  apply insert_sorted_sorted; [done | by rewrite sort_by_perm | by apply IH].
Qed.
End SortFacts.

Lemma StronglySorted_on {A : Type} (R R' : A → A → Prop) (Q : A → Prop) l :
  (∀ a b, Q a → Q b → R a b → R' a b) →
  Forall Q l → StronglySorted R l → StronglySorted R' l.
Proof.
  intros H. induction l as [| x l IH]; intros HQ Hs; [constructor |].
  apply Forall_cons in HQ as [Hx HQ]. apply StronglySorted_inv in Hs as [Hs Hall].
  constructor; [by apply IH |].
  rewrite Forall_forall in *. intros y Hy. apply H; auto.
Qed.

Lemma StronglySorted_app_2 {A : Type} (R : A → A → Prop) l1 l2 :
  StronglySorted R l1 → StronglySorted R l2 →
  (∀ a b, a ∈ l1 → b ∈ l2 → R a b) → StronglySorted R (l1 ++ l2).
Proof.
  intros H1 H2 H. induction l1 as [| x l1 IH]; simpl; [done |].
  apply StronglySorted_inv in H1 as [H1 Hall]. constructor.
  - apply IH; [done |]. intros a b Ha Hb. apply H; [by right | done].
  - apply Forall_app. split; [done |].
    apply Forall_forall. intros b Hb. apply H; [by left | done].
Qed.

Lemma filter_split_perm {A : Type} (p q : A → bool) l :
  (∀ a, q a = negb (p a)) → List.filter p l ++ List.filter q l ≡ₚ l.
Proof.
  intros H. induction l as [| x l IH]; simpl; [done |].
  rewrite H. destruct (p x); simpl.
  - by rewrite IH.
  - rewrite <- Permutation_middle. by rewrite IH.
Qed.

Lemma elem_of_list_filter' {A : Type} (p : A → bool) l x :
  x ∈ List.filter p l ↔ x ∈ l ∧ p x = true.
Proof. rewrite !list_elem_of_In. apply filter_In. Qed.

(** Sorting a float column in decreasing order. *)
Lemma sort_values_desc_ok c df :
  has_col c df = true → float_col c df →
  ∃ full, sort_values_desc c df = Ok {| columns := columns df; rows := full |}
    ∧ full ≡ₚ rows df ∧ StronglySorted (desc_order c) full.
Proof.
  intros Hc Hf. unfold sort_values_desc. rewrite Hc. simpl.
  assert (forallb (fun r => match row_get c r with CFloat _ => true | _ => false end)
            (rows df) = true) as ->.
  { apply forallb_forall. intros r Hr%list_elem_of_In. by destruct (Hf r Hr) as [x ->]. }
  eexists. split; [reflexivity |]. split.
  - rewrite sort_by_perm. apply filter_split_perm. intros r. unfold notna.
    by rewrite negb_involutive.
  - apply StronglySorted_app_2.
    + eapply (StronglySorted_on _ _ (fun r => notna (row_get c r) = true));
        [| | apply (sort_by_sorted _ (fun r => is_nan (key_float c r) = false))].
      * intros a b Ha Hb Hab. right. done.
      * rewrite sort_by_perm. apply Forall_forall. by intros r [_ Hr]%elem_of_list_filter'.
      * intros a b. apply float_geb_total.
      * intros a b d. apply float_geb_trans.
      * apply Forall_forall. intros r [Hr Hn]%elem_of_list_filter'.
        destruct (Hf r Hr) as [x Hx]. unfold key_float. rewrite Hx in *.
        unfold notna in Hn. simpl in Hn. by destruct (is_nan x).
    + assert (Forall (fun r => isna (row_get c r) = true)
                (List.filter (fun r => isna (row_get c r)) (rows df))) as H.
      { apply Forall_forall. by intros r [_ Hr]%elem_of_list_filter'. }
      induction H as [| r l Hr H IH]; constructor; [done |].
      eapply Forall_impl; [exact H |]. intros b Hb. by left.
    + intros a b _ [_ Hb]%elem_of_list_filter'. by left.
Qed.

(** ** The ranking *)

Lemma enrich_derived_float parse_date raw c :
  c ∈ derived_labels →
  has_col c (enrich parse_date raw) = true ∧ float_col c (enrich parse_date raw).
Proof.
  intros Hc. split.
  - unfold enrich, finish. apply has_col_derive. by left.
  - intros r Hr. apply enrich_rows_derived in Hr.
    destruct Hr as (H1 & H2 & H3 & H4 & H5 & H6).
    unfold derived_labels in Hc.
    repeat (apply elem_of_cons in Hc as [-> | Hc]);
      [rewrite H1 | rewrite H2 | rewrite H3 | rewrite H4 | rewrite H5 | rewrite H6 |
       by apply elem_of_nil in Hc];
      first [apply mean_cell_float | apply diff_cell_float].
Qed.

Lemma has_col_columns c df df' : columns df' = columns df → has_col c df' = has_col c df.
Proof. unfold has_col. by intros ->. Qed.

Lemma rows_select_sub p df r : r ∈ rows (select p df) → r ∈ rows df.
Proof. unfold select. cbn [rows]. by intros [H _]%elem_of_list_filter'. Qed.

(** What every visual of [main] starts from: the enriched table, and the
    filtered subset of it. *)
Lemma dashboard_subset parse_dates raw ch df filtered :
  load_data parse_dates raw = Ok df →
  filtered_subset df ch = Ok filtered →
  columns filtered = columns df
  ∧ (∀ r, r ∈ rows filtered → r ∈ rows df)
  ∧ ∀ c, c ∈ derived_labels → has_col c filtered = true ∧ float_col c filtered.
Proof.
  intros Hl Hs. apply load_data_enrich in Hl.
  apply filtered_subset_inv in Hs as (f & _ & ->).
  pose proof (enrich_derived_float (conversion parse_dates) raw) as Hd.
  rewrite <- Hl in Hd. clear Hl.
  split; [reflexivity |]. split; [intros r; apply rows_select_sub |].
  intros c Hc. destruct (Hd c Hc) as [H1 H2].
  split; [exact H1 |]. intros r Hr. apply H2. exact (rows_select_sub _ _ _ Hr).
Qed.

Lemma filter_nil_iff {A : Type} (p : A → bool) l :
  List.filter p l = [] ↔ ∀ a, a ∈ l → p a = false.
Proof.
  induction l as [| x l IH]; simpl.
  - split; [by intros _ a Ha%elem_of_nil | done].
  - destruct (p x) eqn:E.
    + split; [done |]. intros H. assert (p x = false) as Hx; [apply H, elem_of_cons; by left | congruence].
    + rewrite IH. split.
      * intros H a [-> | Ha]%elem_of_cons; auto.
      * intros H a Ha. apply H. by right.
Qed.

(** C2: the ranking of [main], on the filtered subset of a table that
    [load_data] returns from a table with distinct labels, raises nothing.
    When no record of the subset has a performance drop index the notice is
    shown.  Otherwise the chart gets the first ten records of the subset put
    in this order: the records with an index by decreasing index, then the
    records without one; so records without an index are charted when fewer
    than ten have one. *)
Theorem top_drops_ranked parse_dates (raw df filtered : DataFrame) (ch : choices) :
  NoDup (columns raw) →
  load_data parse_dates raw = Ok df →
  filtered_subset df ch = Ok filtered →
  ((∀ r, r ∈ rows filtered → isna (row_get "performance_drop_index" r) = true) →
     top_drops filtered
     = Ok (Notice "No valid performance_drop_index values found to display this chart."))
  ∧ ((∃ r, r ∈ rows filtered ∧ notna (row_get "performance_drop_index" r) = true) →
     ∃ full, full ≡ₚ rows filtered
       ∧ StronglySorted (desc_order "performance_drop_index") full
       ∧ top_drops filtered
         = Ok (Shown {| columns := columns filtered; rows := take 10 full |})).
Proof.
  intros _ Hl Hs.
  destruct (dashboard_subset parse_dates raw ch df filtered Hl Hs) as (_ & _ & Hd).
  destruct (Hd "performance_drop_index"%string) as [Hc Hf].
  { unfold derived_labels. do 5 (apply elem_of_cons; right). apply elem_of_cons. by left. }
  unfold top_drops. rewrite column_ok by done. rewrite bind_ok. split.
  - intros Hall.
    assert (List.filter notna (map (row_get "performance_drop_index") (rows filtered)) = [])
      as ->; [| reflexivity].
    apply filter_nil_iff. intros v (r & -> & Hr)%list_elem_of_fmap.
    unfold notna. by rewrite Hall.
  - intros (r & Hr & Hn).
    destruct (sort_values_desc_ok _ _ Hc Hf) as (full & Hsort & Hp & Hord).
    exists full. split; [exact Hp |]. split; [exact Hord |].
    destruct (List.filter notna (map (row_get "performance_drop_index") (rows filtered)))
      as [| v vs] eqn:E.
    + pose proof (proj1 (filter_nil_iff _ _) E (row_get "performance_drop_index" r)) as H.
      rewrite H in Hn; [discriminate Hn |]. apply list_elem_of_fmap. by exists r.
    + change (0 <? length (v :: vs))%nat with true. cbv iota.
      rewrite Hsort. rewrite bind_ok. reflexivity.
Qed.

Lemma top_drops_ranked_witness :
  ((∀ r, r ∈ rows sample_filtered → isna (row_get "performance_drop_index" r) = true) →
     top_drops sample_filtered
     = Ok (Notice "No valid performance_drop_index values found to display this chart."))
  ∧ ((∃ r, r ∈ rows sample_filtered ∧ notna (row_get "performance_drop_index" r) = true) →
     ∃ full, full ≡ₚ rows sample_filtered
       ∧ StronglySorted (desc_order "performance_drop_index") full
       ∧ top_drops sample_filtered
         = Ok (Shown {| columns := columns sample_filtered; rows := take 10 full |})).
Proof.
  apply (top_drops_ranked sample_dates sample_table sample_enriched sample_filtered
           sample_choices).
  - apply (bool_decide_unpack (NoDup (columns sample_table))). vm_compute. exact I.
  - vm_compute. reflexivity.
  - vm_compute. reflexivity.
Defined.

(** A record without a performance drop index is charted: the sample subset
    has two records, one of them without an index, and the ranking gives
    both. *)
Lemma top_drops_keeps_missing :
  ∃ out r, top_drops sample_filtered = Ok (Shown out)
    ∧ r ∈ rows out
    ∧ isna (row_get "performance_drop_index" r) = true.
Proof.
  eexists. eexists. split; [vm_compute; reflexivity |].
  split; [apply elem_of_cons; right; apply elem_of_cons; by left |].
  vm_compute. reflexivity.
Qed.

(** ** The frequency grid *)








(** ** Records without a grouping key *)

Lemma keyed_drop keys cols l1 r l2 :
  forallb (fun k => notna (row_get k r)) keys = false →
  keyed keys {| columns := cols; rows := l1 ++ r :: l2 |}
  = keyed keys {| columns := cols; rows := l1 ++ l2 |}.
Proof.
  intros H. unfold keyed. cbn [rows]. rewrite !List.filter_app. cbn [List.filter].
  by rewrite H.
Qed.

(** C10: a record whose player name or team is missing is in no group of the
    leaderboard: the leaderboard of a table is the leaderboard of the table
    without that record, whether it is shown, replaced by the notice or
    raised; the record is a record of the table all the same, and the total
    of the summary counts it. *)
Theorem null_key_dropped (cols : list string) (l1 l2 : list row) (r : row) :
  isna (row_get "Player_Name" r) = true ∨ isna (row_get "Team" r) = true →
  let filtered := {| columns := cols; rows := l1 ++ r :: l2 |} in
  let others := {| columns := cols; rows := l1 ++ l2 |} in
  leaderboard filtered = leaderboard others
  ∧ r ∈ rows filtered
  ∧ total_injuries filtered = S (total_injuries others).
Proof.
  intros H filtered others. split; [| split].
  - unfold leaderboard, grouped, require_col, filtered, others, has_col. cbn [columns].
    rewrite keyed_drop; [done |].
    cbn [forallb]. unfold notna. destruct H as [-> | ->]; [done |].
    by rewrite andb_false_r.
  - unfold filtered. cbn [rows]. apply elem_of_app. right. apply elem_of_cons. by left.
  - unfold total_injuries, filtered, others. cbn [rows].
    rewrite !length_app. cbn [length]. lia.
Qed.

Lemma null_key_dropped_witness :
  let filtered := {| columns := columns sample_filtered;
                     rows := rows sample_filtered ++ teamless_record :: [] |} in
  let others := {| columns := columns sample_filtered;
                   rows := rows sample_filtered ++ [] |} in
  leaderboard filtered = leaderboard others
  ∧ teamless_record ∈ rows filtered
  ∧ total_injuries filtered = S (total_injuries others).
Proof.
  apply (null_key_dropped (columns sample_filtered) (rows sample_filtered) []
           teamless_record).
  right. vm_compute. reflexivity.
Defined.

(** ** The leaderboard *)











